(** * CivicTrack backend: issue lifecycle and geospatial listing

    A shallow embedding of [backend/app.py], [backend/models.py] and
    [backend/config.py].

    - The four tables of [models.py] are the fields of [Db].  [users] and
      [issues] are finite maps keyed by their integer primary key (the key
      is the [id] column); [issue_images] and [status_logs] are lists of
      rows in insertion order.
    - A Python [float] is an IEEE-754 binary64, here a primitive [float].
      A Python [int] is a [Z]; the range of the database column is not
      modelled, and an issue id in a request is taken within the range of
      the integer key (below 2^63: beyond it the driver of the default
      database raises [OverflowError] at the lookup).
    - The database is the default one of [config.py], SQLite: a float
      column refuses NaN (it is bound as NULL, and the columns are NOT
      NULL) and stores a negative zero as zero.
    - Every route takes the committed database and the request, and gives
      back the committed database after the request together with the
      response.  [db.session.commit()] is the point where pending changes
      reach the [Db]; [db.session.rollback()] drops what is pending.
    - What the routes call but the repository does not define ([float],
      [geodesic], [secure_filename], [uuid4], [file.save]) is a field of
      [Env].
    - The clock is not modelled: the columns [created_at] and [timestamp]
      are left out of the rows and of the serialised issue.  The password
      and email columns of [users] play no role in the issue routes and are
      left out as well. *)

From Stdlib Require Import ZArith String Ascii Floats DecimalString Lia.
From stdpp Require Import base option list gmap strings.

Local Open Scope string_scope.
Local Open Scope list_scope.
Local Open Scope Z_scope.

(** ** Strings *)

Definition ascii_lower (c : ascii) : ascii :=
  let n := nat_of_ascii c in
  if ((65 <=? n)%nat && (n <=? 90)%nat)%bool then ascii_of_nat (n + 32) else c.

(** [str.lower()], on ASCII letters. *)
Fixpoint lower (s : string) : string :=
  match s with
  | EmptyString => EmptyString
  | String c r => String (ascii_lower c) (lower r)
  end.

(** [s.rsplit('.', 1)[1]]: the text after the last dot; [None] when [s]
    has no dot (Python raises [IndexError] at the subscript). *)
Fixpoint rsplit_dot (s : string) : option string :=
  match s with
  | EmptyString => None
  | String c r =>
      match rsplit_dot r with
      | Some ext => Some ext
      | None => if Ascii.eqb c "."%char then Some r else None
      end
  end.

(** Truth value of a Python [str]: the empty string is false. *)
Definition truthy (s : string) : bool := negb (String.eqb s "").

(** ** config.py *)

Module Config.
Definition ALLOWED_EXTENSIONS : list string := ["png"; "jpg"; "jpeg"; "gif"].
End Config.

(** ** models.py *)

Module User.
Record t := mk { username : string; is_admin : bool }.
End User.

Module Issue.
Record t := mk {
  title : string;
  description : string;
  category : string;
  latitude : float;
  longitude : float;
  status : string;
  user_id : Z;
  is_anonymous : bool;
  upvotes : Z;
  flags : Z
}.

Definition set_title (v : string) (i : t) : t :=
  mk v (description i) (category i) (latitude i) (longitude i) (status i)
     (user_id i) (is_anonymous i) (upvotes i) (flags i).
Definition set_description (v : string) (i : t) : t :=
  mk (title i) v (category i) (latitude i) (longitude i) (status i)
     (user_id i) (is_anonymous i) (upvotes i) (flags i).
Definition set_category (v : string) (i : t) : t :=
  mk (title i) (description i) v (latitude i) (longitude i) (status i)
     (user_id i) (is_anonymous i) (upvotes i) (flags i).
Definition set_status (v : string) (i : t) : t :=
  mk (title i) (description i) (category i) (latitude i) (longitude i) v
     (user_id i) (is_anonymous i) (upvotes i) (flags i).
Definition set_upvotes (v : Z) (i : t) : t :=
  mk (title i) (description i) (category i) (latitude i) (longitude i)
     (status i) (user_id i) (is_anonymous i) v (flags i).
Definition set_flags (v : Z) (i : t) : t :=
  mk (title i) (description i) (category i) (latitude i) (longitude i)
     (status i) (user_id i) (is_anonymous i) (upvotes i) v.
End Issue.

Module IssueImage.
Record t := mk { id : Z; filename : string; issue_id : option Z }.
End IssueImage.

Module StatusLog.
Record t := mk {
  id : Z;
  issue_id : option Z;
  status : string;
  admin_id : option Z
}.
End StatusLog.

Record Db := mkDb {
  users : gmap Z User.t;
  issues : gmap Z Issue.t;
  issue_images : list IssueImage.t;
  status_logs : list StatusLog.t
}.

(** The primary key the database gives to the next inserted row: one more
    than the largest key in use, 1 for an empty table. *)
Definition next_id (keys : list Z) : Z := 1 + foldr Z.max 0 keys.

Definition next_issue_id (db : Db) : Z := next_id (map_to_list (issues db)).*1.
Definition next_image_id (db : Db) : Z := next_id (IssueImage.id <$> issue_images db).
Definition next_log_id (db : Db) : Z := next_id (StatusLog.id <$> status_logs db).

(** [issue.images] and [issue.logs]: the rows whose foreign key is the
    issue. *)
Definition images_of (db : Db) (issue_id : Z) : list IssueImage.t :=
  filter (λ img, IssueImage.issue_id img = Some issue_id) (issue_images db).
Definition logs_of (db : Db) (issue_id : Z) : list StatusLog.t :=
  filter (λ log, StatusLog.issue_id log = Some issue_id) (status_logs db).

(** [db.session.add(StatusLog(...)); db.session.commit()] *)
Definition add_log (issue_id : Z) (status : string) (admin_id : option Z)
    (db : Db) : Db :=
  mkDb (users db) (issues db) (issue_images db)
       (status_logs db ++
          [StatusLog.mk (next_log_id db) (Some issue_id) status admin_id]).

(** Writing back one row of [issues]. *)
Definition put_issue (issue_id : Z) (issue : Issue.t) (db : Db) : Db :=
  mkDb (users db) (<[issue_id := issue]> (issues db)) (issue_images db)
       (status_logs db).

(** ** Exceptions and responses *)

Inductive Exn :=
  | KeyError | TypeError | ValueError | IndexError | OSError | AttributeError
  | IntegrityError.

#[global] Instance result_ret : MRet (sum Exn) := λ _ x, inr x.
#[global] Instance result_bind : MBind (sum Exn) := λ _ _ f m,
  match m with inl e => inl e | inr x => f x end.

(** The dictionary built by [format_issue]. *)
Record IssueView := mkView {
  v_id : Z;
  v_title : string;
  v_description : string;
  v_category : string;
  v_latitude : float;
  v_longitude : float;
  v_status : string;
  v_user : option (Z * string);
  v_upvotes : Z;
  v_flags : Z;
  v_images : list string;
  v_can_edit : bool;
  v_logs : list (string * option (Z * string))
}.

Inductive Body :=
  | BError (msg : string)            (* {"error": msg} *)
  | BRaised (e : Exn)                (* {"error": str(e)} *)
  | BIssue (v : IssueView)
  | BIssues (vs : list IssueView)
  | BUpvotes (n : Z)                 (* {"upvotes": n} *)
  | BFlags (n : Z)                   (* {"flags": n} *)
  | BMessage (msg : string)          (* {"message": msg} *)
  | BAbort.                          (* page of the framework: 401, 404 *)

(** A route either answers, or lets an exception escape (the framework
    then answers 500). *)
Inductive Response :=
  | Reply (code : Z) (body : Body)
  | Unhandled (e : Exn).

(** ** What the routes take from outside the repository *)

Record Env := mkEnv {
  (** [float(s)] on a string: [None] when it raises [ValueError]. *)
  py_float : string → option float;
  (** [geodesic((lat1, lon1), (lat2, lon2)).km]: [None] when the library
      raises [ValueError] (some versions refuse a latitude outside
      [-90, 90]) *)
  geodesic_km : float → float → float → float → option float;
  (** the distance of a point to itself, where the library computes it,
      is 0 *)
  geodesic_here : ∀ lat lon km,
    geodesic_km lat lon lat lon = Some km → km = 0%float;
  (** [werkzeug.utils.secure_filename] *)
  secure_filename : string → string;
  (** the text of the [k]-th [uuid.uuid4()] drawn by a request *)
  uuid4 : nat → string;
  (** [file.save(path)] for the generated file name: [false] when it
      raises *)
  file_save : string → bool
}.

(** ** app.py: helpers *)

Definition allowed_file (filename : string) : bool :=
  match rsplit_dot filename with
  | None => false
  | Some ext => existsb (String.eqb (lower ext)) Config.ALLOWED_EXTENSIONS
  end.

Definition is_within_radius (E : Env)
    (user_lat user_lon issue_lat issue_lon radius_km : float) : Exn + bool :=
  match geodesic_km E user_lat user_lon issue_lat issue_lon with
  | Some km => inr (km <=? radius_km)%float
  | None => inl ValueError
  end.

(** [{"id": u.id, "username": u.username}] for a user row that exists. *)
Definition user_ref (db : Db) (uid : Z) : option (Z * string) :=
  u ← users db !! uid; Some (uid, User.username u).

(** [current_user_id == issue.user_id if current_user_id else False]: the
    identity 0 is false in Python. *)
Definition can_edit (current_user_id : option Z) (owner : Z) : bool :=
  match current_user_id with
  | Some c => if c =? 0 then false else c =? owner
  | None => false
  end.

(** [issue.user.id] raises [AttributeError] when the issue is not anonymous
    and its user row does not exist; a log whose admin is absent is
    serialised with [None]. *)
Definition format_issue (db : Db) (issue_id : Z) (issue : Issue.t)
    (current_user_id : option Z) : Exn + IssueView :=
  user ← (if Issue.is_anonymous issue then inr None
          else match user_ref db (Issue.user_id issue) with
               | Some r => inr (Some r)
               | None => inl AttributeError
               end);
  inr (mkView issue_id (Issue.title issue) (Issue.description issue)
         (Issue.category issue) (Issue.latitude issue) (Issue.longitude issue)
         (Issue.status issue) user (Issue.upvotes issue) (Issue.flags issue)
         (IssueImage.filename <$> images_of db issue_id)
         (can_edit current_user_id (Issue.user_id issue))
         ((λ log, (StatusLog.status log,
                   a ← StatusLog.admin_id log; user_ref db a))
            <$> logs_of db issue_id)).

(** [Issue.query.get_or_404(issue_id)], for an id within the range of the
    integer key (below 2^63), as every stored id is. *)
Definition get_or_404 (db : Db) (issue_id : Z) : Response + Issue.t :=
  match issues db !! issue_id with
  | Some issue => inr issue
  | None => inl (Reply 404 BAbort)
  end.

(** [float(v)] on the value of [request.args.get] or of a form field:
    [None] raises [TypeError], a string that is no number [ValueError]. *)
Definition float_arg (E : Env) (v : option string) : Exn + float :=
  match v with
  | None => inl TypeError
  | Some s =>
      match py_float E s with
      | Some x => inr x
      | None => inl ValueError
      end
  end.

(** ** app.py: GET /api/issues *)

(** [query.filter_by(col=v)] under [if v:]: an absent or empty parameter
    leaves the query as it is. *)
Definition filter_by (col : Issue.t → string) (v : option string)
    (query : list (Z * Issue.t)) : list (Z * Issue.t) :=
  match v with
  | Some s => if truthy s then filter (λ r, col r.2 = s) query else query
  | None => query
  end.

(** [[issue for issue in rows if is_within_radius(...)]]: the rows are
    tested in order and the first exception ends the comprehension. *)
Fixpoint within_radius (E : Env) (user_lat user_lon radius : float)
    (rows : list (Z * Issue.t)) : Exn + list (Z * Issue.t) :=
  match rows with
  | [] => inr []
  | r :: rest =>
      near ← is_within_radius E user_lat user_lon
                (Issue.latitude r.2) (Issue.longitude r.2) radius;
      rest' ← within_radius E user_lat user_lon radius rest;
      inr (if near : bool then r :: rest' else rest')
  end.

(** [query.all()] after the two optional filters. *)
Definition filtered_issues (db : Db) (category status : option string)
    : list (Z * Issue.t) :=
  let query := map_to_list (issues db) in
  let query := filter_by Issue.category category query in
  filter_by Issue.status status query.

(** The rows selected by the query and the list comprehension. *)
Definition nearby_issues (E : Env) (db : Db) (user_lat user_lon radius : float)
    (category status : option string) : Exn + list (Z * Issue.t) :=
  within_radius E user_lat user_lon radius
    (filtered_issues db category status).

(** [[format_issue(issue, current_user_id) for issue in rows]] *)
Fixpoint format_all (db : Db) (current_user_id : option Z)
    (rows : list (Z * Issue.t)) : Exn + list IssueView :=
  match rows with
  | [] => inr []
  | r :: rest =>
      v ← format_issue db r.1 r.2 current_user_id;
      vs ← format_all db current_user_id rest;
      inr (v :: vs)
  end.

(** [request.args.get('radius', 5)] then [float]: the default is the
    integer 5. *)
Definition radius_arg (E : Env) (args : gmap string string) : Exn + float :=
  match args !! "radius" with
  | None => inr 5%float
  | Some s => float_arg E (Some s)
  end.

(** [identity] is [get_jwt_identity()]: [None] without a token, which
    [jwt_required(optional=True)] lets through. *)
Definition get_issues (E : Env) (db : Db) (identity : option Z)
    (args : gmap string string) : Response :=
  match float_arg E (args !! "lat"), float_arg E (args !! "lon") with
  | inr user_lat, inr user_lon =>
      match radius_arg E args with
      | inl e => Unhandled e
      | inr radius =>
          match nearby_issues E db user_lat user_lon radius
                  (args !! "category") (args !! "status") with
          | inl e => Unhandled e
          | inr nearby =>
              match format_all db identity nearby with
              | inl e => Unhandled e
              | inr vs => Reply 200 (BIssues vs)
              end
          end
      end
  | _, _ => Reply 400 (BError "Invalid coordinates")
  end.

(** ** app.py: POST /api/issues *)

(** [data[k]] on the form: a missing key raises. *)
Definition form_field (form : gmap string string) (k : string) : Exn + string :=
  match form !! k with
  | Some v => inr v
  | None => inl KeyError
  end.

(** A float as the database gives it back: a zero of either sign is
    stored as zero, every other value as it is. *)
Definition as_stored (x : float) : float :=
  if PrimFloat.is_zero x then 0%float else x.

(** The insert of a float into a NOT NULL column: NaN is bound as NULL and
    refused. *)
Definition sqlite_real (x : float) : Exn + float :=
  if PrimFloat.is_nan x then inl IntegrityError else inr (as_stored x).

(** [Issue(title=..., ...)] and the row that
    [db.session.add(new_issue); db.session.commit()] inserts, or the
    exception raised on the way: [status], [upvotes] and [flags] take their
    column defaults at the insert, and the coordinates are stored by
    [sqlite_real]. *)
Definition new_issue (E : Env) (user_id : Z) (form : gmap string string)
    : Exn + Issue.t :=
  title ← form_field form "title";
  description ← form_field form "description";
  category ← form_field form "category";
  lat ← form_field form "latitude";
  latitude ← float_arg E (Some lat);
  lon ← form_field form "longitude";
  longitude ← float_arg E (Some lon);
  latitude ← sqlite_real latitude;
  longitude ← sqlite_real longitude;
  inr (Issue.mk title description category latitude longitude "Reported"
         user_id
         (String.eqb (lower (default "false" (form !! "is_anonymous"))) "true")
         0 0).

(** The loop over [request.files.getlist('images')]; a file is given by
    its client file name.  The result is the list of generated file names
    of the pending [IssueImage] rows, or the exception that ended the
    loop. *)
Fixpoint save_uploads (E : Env) (k : nat) (files : list string)
    : Exn + list string :=
  match files with
  | [] => inr []
  | file :: rest =>
      if (truthy file && allowed_file file)%bool then
        match rsplit_dot (secure_filename E file) with
        | None => inl IndexError
        | Some ext =>
            let filename := uuid4 E k +:+ "." +:+ lower ext in
            if file_save E filename then
              names ← save_uploads E (S k) rest; inr (filename :: names)
            else inl OSError
        end
      else save_uploads E k rest
  end.

(** The pending image rows reach the table at the commit. *)
Definition add_images (issue_id : Z) (names : list string) (db : Db) : Db :=
  mkDb (users db) (issues db)
       (issue_images db ++
          imap (λ k name,
                  IssueImage.mk (next_image_id db + Z.of_nat k) name
                                (Some issue_id)) names)
       (status_logs db).

Definition report_issue (E : Env) (db : Db) (identity : option Z)
    (form : gmap string string) (files : list string) : Db * Response :=
  match identity with
  | None => (db, Reply 401 BAbort)
  | Some user_id =>
      match new_issue E user_id form with
      | inl e => (db, Reply 400 (BRaised e))
      | inr issue =>
          let issue_id := next_issue_id db in
          (* the first commit has stored the row *)
          let db1 := put_issue issue_id issue db in
          match save_uploads E 0 files with
          | inl e =>
              (* db.session.rollback(): db1 is already committed *)
              (db1, Reply 400 (BRaised e))
          | inr names =>
              let db2 := add_log issue_id "Reported" None
                           (add_images issue_id names db1) in
              match format_issue db2 issue_id issue (Some user_id) with
              | inl e => (db2, Reply 400 (BRaised e))
              | inr v => (db2, Reply 201 (BIssue v))
              end
          end
      end
  end.

(** ** app.py: PUT /api/issues/<issue_id> *)

(** The three [if 'k' in data: issue.k = data['k']]. *)
Definition apply_fields (data : gmap string string) (issue : Issue.t) : Issue.t :=
  let issue := match data !! "title" with
               | Some v => Issue.set_title v issue | None => issue end in
  let issue := match data !! "description" with
               | Some v => Issue.set_description v issue | None => issue end in
  match data !! "category" with
  | Some v => Issue.set_category v issue | None => issue end.

Definition update_issue (db : Db) (identity : option Z) (issue_id : Z)
    (data : gmap string string) : Db * Response :=
  match identity with
  | None => (db, Reply 401 BAbort)
  | Some user_id =>
      match get_or_404 db issue_id with
      | inl r => (db, r)
      | inr issue =>
          let proceed :=
            let issue' := apply_fields data issue in
            let db' := put_issue issue_id issue' db in
            match format_issue db' issue_id issue' (Some user_id) with
            | inl e => (db', Unhandled e)
            | inr v => (db', Reply 200 (BIssue v))
            end in
          if bool_decide (Issue.user_id issue ≠ user_id) then
            match users db !! user_id with
            | None => (db, Unhandled AttributeError)
            | Some user =>
                if negb (User.is_admin user)
                then (db, Reply 403 (BError "Unauthorized"))
                else proceed
            end
          else proceed
      end
  end.

(** ** app.py: PUT /api/issues/<issue_id>/status *)

Definition settable_statuses : list string :=
  ["Reported"; "In Progress"; "Resolved"].

Definition update_issue_status (db : Db) (identity : option Z) (issue_id : Z)
    (data : gmap string string) : Db * Response :=
  match identity with
  | None => (db, Reply 401 BAbort)
  | Some uid =>
      match users db !! uid with
      | None => (db, Unhandled AttributeError)
      | Some user =>
          if negb (User.is_admin user)
          then (db, Reply 403 (BError "Unauthorized"))
          else
            match get_or_404 db issue_id with
            | inl r => (db, r)
            | inr issue =>
                match data !! "status" with
                | None => (db, Reply 400 (BError "Invalid status"))
                | Some new_status =>
                    if (negb (truthy new_status)
                        || negb (existsb (String.eqb new_status)
                                   settable_statuses))%bool
                    then (db, Reply 400 (BError "Invalid status"))
                    else
                      let issue' := Issue.set_status new_status issue in
                      let db' := add_log issue_id new_status (Some uid)
                                   (put_issue issue_id issue' db) in
                      match format_issue db' issue_id issue' None with
                      | inl e => (db', Unhandled e)
                      | inr v => (db', Reply 200 (BIssue v))
                      end
                end
            end
      end
  end.

(** ** app.py: POST /api/issues/<issue_id>/upvote and /flag *)

Definition upvote_issue (db : Db) (identity : option Z) (issue_id : Z)
    : Db * Response :=
  match identity with
  | None => (db, Reply 401 BAbort)
  | Some _ =>
      match get_or_404 db issue_id with
      | inl r => (db, r)
      | inr issue =>
          let issue' := Issue.set_upvotes (Issue.upvotes issue + 1) issue in
          (put_issue issue_id issue' db, Reply 200 (BUpvotes (Issue.upvotes issue')))
      end
  end.

Definition flag_issue (db : Db) (identity : option Z) (issue_id : Z)
    : Db * Response :=
  match identity with
  | None => (db, Reply 401 BAbort)
  | Some _ =>
      match get_or_404 db issue_id with
      | inl r => (db, r)
      | inr issue =>
          let issue' := Issue.set_flags (Issue.flags issue + 1) issue in
          if 5 <=? Issue.flags issue' then
            let issue'' := Issue.set_status "Flagged" issue' in
            (add_log issue_id "Flagged" None (put_issue issue_id issue'' db),
             Reply 200 (BFlags (Issue.flags issue'')))
          else
            (put_issue issue_id issue' db, Reply 200 (BFlags (Issue.flags issue')))
      end
  end.

(** ** app.py: DELETE /api/admin/issues/<issue_id> *)

(** The relationships [Issue.images] and [Issue.logs] are declared without
    a [cascade] option.  At [db.session.delete(issue)] the ORM then keeps
    the rows of the two collections and sets their foreign key to NULL. *)
Definition orphan_image (issue_id : Z) (img : IssueImage.t) : IssueImage.t :=
  if bool_decide (IssueImage.issue_id img = Some issue_id)
  then IssueImage.mk (IssueImage.id img) (IssueImage.filename img) None
  else img.

Definition orphan_log (issue_id : Z) (log : StatusLog.t) : StatusLog.t :=
  if bool_decide (StatusLog.issue_id log = Some issue_id)
  then StatusLog.mk (StatusLog.id log) None (StatusLog.status log)
                    (StatusLog.admin_id log)
  else log.

Definition delete_issue (db : Db) (identity : option Z) (issue_id : Z)
    : Db * Response :=
  match identity with
  | None => (db, Reply 401 BAbort)
  | Some uid =>
      match users db !! uid with
      | None => (db, Unhandled AttributeError)
      | Some user =>
          if negb (User.is_admin user)
          then (db, Reply 403 (BError "Unauthorized"))
          else
            match get_or_404 db issue_id with
            | inl r => (db, r)
            | inr _ =>
                (mkDb (users db) (delete issue_id (issues db))
                      (orphan_image issue_id <$> issue_images db)
                      (orphan_log issue_id <$> status_logs db),
                 Reply 200 (BMessage "Issue deleted"))
            end
      end
  end.

(** ** app.py: GET /api/admin/issues *)

(** [format_issue(issue)] is called without a current user. *)
Definition get_all_issues (db : Db) (identity : option Z) : Response :=
  match identity with
  | None => Reply 401 BAbort
  | Some uid =>
      match users db !! uid with
      | None => Unhandled AttributeError
      | Some user =>
          if negb (User.is_admin user)
          then Reply 403 (BError "Unauthorized")
          else
            match format_all db None (map_to_list (issues db)) with
            | inl e => Unhandled e
            | inr vs => Reply 200 (BIssues vs)
            end
      end
  end.

(** ** The lifecycle operations as a transition system *)

Inductive Op :=
  | OpCreate (identity : option Z) (form : gmap string string)
             (files : list string)
  | OpEdit (identity : option Z) (issue_id : Z) (data : gmap string string)
  | OpSetStatus (identity : option Z) (issue_id : Z)
                (data : gmap string string)
  | OpUpvote (identity : option Z) (issue_id : Z)
  | OpFlag (identity : option Z) (issue_id : Z)
  | OpDelete (identity : option Z) (issue_id : Z).

(** The committed database after one request. *)
Definition exec (E : Env) (db : Db) (op : Op) : Db :=
  match op with
  | OpCreate identity form files => (report_issue E db identity form files).1
  | OpEdit identity issue_id data => (update_issue db identity issue_id data).1
  | OpSetStatus identity issue_id data =>
      (update_issue_status db identity issue_id data).1
  | OpUpvote identity issue_id => (upvote_issue db identity issue_id).1
  | OpFlag identity issue_id => (flag_issue db identity issue_id).1
  | OpDelete identity issue_id => (delete_issue db identity issue_id).1
  end.

(** The response to one request. *)
Definition answer (E : Env) (db : Db) (op : Op) : Response :=
  match op with
  | OpCreate identity form files => (report_issue E db identity form files).2
  | OpEdit identity issue_id data => (update_issue db identity issue_id data).2
  | OpSetStatus identity issue_id data =>
      (update_issue_status db identity issue_id data).2
  | OpUpvote identity issue_id => (upvote_issue db identity issue_id).2
  | OpFlag identity issue_id => (flag_issue db identity issue_id).2
  | OpDelete identity issue_id => (delete_issue db identity issue_id).2
  end.

Definition run (E : Env) (db : Db) (ops : list Op) : Db :=
  foldl (exec E) db ops.

(** A database with registered users and no issue yet. *)
Definition fresh_db (us : gmap Z User.t) : Db := mkDb us ∅ [] [].

(** [n] requests to one route of an issue, one per principal. *)
Definition upvotes_by (db : Db) (issue_id : Z) (principals : list Z) : Db :=
  foldl (λ d u, (upvote_issue d (Some u) issue_id).1) db principals.

Definition flags_by (db : Db) (issue_id : Z) (principals : list Z) : Db :=
  foldl (λ d u, (flag_issue d (Some u) issue_id).1) db principals.

(** The log entries of an issue that carry a given status. *)
Definition logs_with_status (db : Db) (issue_id : Z) (status : string)
    : list StatusLog.t :=
  filter (λ log, StatusLog.status log = status) (logs_of db issue_id).

(** ** Vocabulary of the statements *)

(** [format_issue] can name the reporter: the issue is anonymous or its
    user row exists. *)
Definition owner_known (db : Db) (issue : Issue.t) : Prop :=
  Issue.is_anonymous issue = true ∨ is_Some (users db !! Issue.user_id issue).

(** A query or form value on which [float] raises: it is missing, or it
    is a string that is no number. *)
Definition bad_float_arg (E : Env) (v : option string) : Prop :=
  v = None ∨ ∃ s, v = Some s ∧ py_float E s = None.

(** The filter the listing applies for a parameter: none when the
    parameter is absent or empty, equality otherwise. *)
Definition passes_filter (v : option string) (x : string) : Prop :=
  match v with
  | Some s => s ≠ "" → x = s
  | None => True
  end.

(** The five form fields that [report_issue] reads with [data[...]]. *)
Definition required_fields : list string :=
  ["title"; "description"; "category"; "latitude"; "longitude"].

(** A form value for a coordinate that is no number, or that is the
    number NaN. *)
Definition bad_coordinate (E : Env) (s : string) : Prop :=
  py_float E s = None
  ∨ ∃ x, py_float E s = Some x ∧ PrimFloat.is_nan x = true.

(** A form on which building or inserting the issue raises. *)
Definition bad_form (E : Env) (form : gmap string string) : Prop :=
  (∃ k, k ∈ required_fields ∧ form !! k = None)
  ∨ (∃ s, form !! "latitude" = Some s ∧ bad_coordinate E s)
  ∨ (∃ s, form !! "longitude" = Some s ∧ bad_coordinate E s).

(** The most recent log entry of the issue was written by an admin status
    update and carries the status the issue has now. *)
Definition admin_logged (db : Db) (issue_id : Z) (issue : Issue.t) : Prop :=
  ∃ log admin,
    last (logs_of db issue_id) = Some log
    ∧ StatusLog.admin_id log = Some admin
    ∧ StatusLog.status log = Issue.status issue.

(** What the flag threshold guarantees about a database. *)
Definition flag_inv (db : Db) : Prop :=
  ∀ i issue,
    issues db !! i = Some issue →
    5 ≤ Issue.flags issue →
    Issue.status issue = "Flagged" ∨ admin_logged db i issue.

(** The characters of a string. *)
Definition chars (s : string) : list ascii := String.list_ascii_of_string s.

(** An upload that the loop of [report_issue] stores: its name is not
    empty and passes [allowed_file]. *)
Definition accepted_upload (file : string) : bool :=
  (truthy file && allowed_file file)%bool.

(** The four values the routes write into the status column. *)
Definition known_statuses : list string :=
  ["Reported"; "In Progress"; "Resolved"; "Flagged"].

(** What one request can do to an issue row that stays in the table. *)
Inductive row_change (issue : Issue.t) : Issue.t → Prop :=
  | change_edit (data : gmap string string) :
      row_change issue (apply_fields data issue)
  | change_status (s : string) :
      s ∈ settable_statuses →
      row_change issue (Issue.set_status s issue)
  | change_upvote :
      row_change issue (Issue.set_upvotes (Issue.upvotes issue + 1) issue)
  | change_flag_below :
      Issue.flags issue + 1 < 5 →
      row_change issue (Issue.set_flags (Issue.flags issue + 1) issue)
  | change_flag_hide :
      5 ≤ Issue.flags issue + 1 →
      row_change issue
        (Issue.set_status "Flagged"
           (Issue.set_flags (Issue.flags issue + 1) issue)).

(** Every image and log row that names an issue names a stored one. *)
Definition refs_resolve (db : Db) : Prop :=
  (∀ img i, img ∈ issue_images db → IssueImage.issue_id img = Some i →
     is_Some (issues db !! i))
  ∧ (∀ log i, log ∈ status_logs db → StatusLog.issue_id log = Some i →
       is_Some (issues db !! i)).

(** The latest log entry of every issue that has one carries the status
    of the issue. *)
Definition log_current (db : Db) : Prop :=
  ∀ i issue log,
    issues db !! i = Some issue →
    last (logs_of db i) = Some log →
    StatusLog.status log = Issue.status issue.

(** ** An environment to evaluate the routes on concrete requests

    The theorems below hold for every [Env].  Examples need one to run:
    [float] restricted to decimal integer literals below 2^53 (on which it
    is exact), a stand-in distance on the degree grid that refuses NaN
    and a latitude outside [-90, 90], and the part of [secure_filename]
    that strips leading dots. *)

Definition float_of_uint (d : Decimal.uint) : option float :=
  let z := Z.of_uint d in
  if z <? 2 ^ 53 then Some (PrimFloat.of_uint63 (Uint63.of_Z z)) else None.

Definition float_of_int_literal (s : string) : option float :=
  match NilZero.int_of_string s with
  | Some (Decimal.Pos d) => float_of_uint d
  | Some (Decimal.Neg d) => PrimFloat.opp <$> float_of_uint d
  | None => None
  end.

Definition grid_point (lat lon : float) : bool :=
  ((lat =? lat) && (lon =? lon) && (PrimFloat.abs lat <=? 90))%float.

Definition grid_km (lat1 lon1 lat2 lon2 : float) : option float :=
  if (grid_point lat1 lon1 && grid_point lat2 lon2)%bool then
    if ((lat1 =? lat2) && (lon1 =? lon2))%float then Some 0%float
    else Some ((PrimFloat.abs (lat1 - lat2) + PrimFloat.abs (lon1 - lon2))
               * 111)%float
  else None.

Definition grid_km_here (lat lon km : float) :
  grid_km lat lon lat lon = Some km → km = 0%float.
Proof.
  unfold grid_km, grid_point.
  destruct (lat =? lat)%float; simpl; [|done].
  destruct (lon =? lon)%float; simpl; [|done].
  destruct (PrimFloat.abs lat <=? 90)%float; simpl; [|done].
  by intros [= <-].
Qed.

Fixpoint strip_dots (s : string) : string :=
  match s with
  | String c r => if Ascii.eqb c "."%char then strip_dots r else s
  | EmptyString => EmptyString
  end.

Definition sample_env : Env :=
  mkEnv float_of_int_literal grid_km grid_km_here strip_dots
        (λ _, "00000000-0000-4000-8000-000000000000")
        (λ _, true).

(** A small database for the examples: six users, of whom [2] is an admin,
    and one issue reported by user [1]. *)
Definition sample_users : gmap Z User.t :=
  <[1 := User.mk "asha" false]> (<[2 := User.mk "root" true]>
  (<[3 := User.mk "ravi" false]> (<[4 := User.mk "meena" false]>
  (<[5 := User.mk "john" false]> (<[6 := User.mk "tanu" false]> ∅))))).

Definition sample_form : gmap string string :=
  <["title" := "Pothole"]> (<["description" := "Deep one"]>
  (<["category" := "pothole"]> (<["latitude" := "12"]>
  (<["longitude" := "77"]> ∅)))).

Definition sample_issue : Issue.t :=
  Issue.mk "Pothole" "Deep one" "pothole" 12 77 "Reported" 1 false 0 0.

Definition sample_db : Db :=
  (report_issue sample_env (fresh_db sample_users) (Some 1) sample_form []).1.

(** The same report with one photo attached. *)
Definition sample_db_photo : Db :=
  (report_issue sample_env (fresh_db sample_users) (Some 1) sample_form
     ["street.PNG"]).1.

(** The sample issue after five flag requests. *)
Definition sample_db_flagged : Db := flags_by sample_db 1 [1; 2; 3; 4; 5].

Definition sample_issue_flagged : Issue.t :=
  Issue.set_status "Flagged" (Issue.set_flags 5 sample_issue).

(** A report with coordinates off the globe and empty title and
    category. *)
Definition off_globe_form : gmap string string :=
  <["title" := ""]> (<["description" := "Deep one"]>
  (<["category" := ""]> (<["latitude" := "91"]>
  (<["longitude" := "181"]> ∅)))).

(** The database after the report with coordinates off the globe. *)
Definition off_globe_db : Db :=
  (report_issue sample_env (fresh_db sample_users) (Some 1) off_globe_form
     []).1.

(** The sample report and, after it, a report off the globe. *)
Definition two_reports_db : Db :=
  (report_issue sample_env sample_db (Some 3) off_globe_form []).1.

(** A report, five flags by five principals, then a status update by the
    admin. *)
Definition flagged_then_resolved : list Op :=
  [OpCreate (Some 1) sample_form [];
   OpFlag (Some 1) 1; OpFlag (Some 3) 1; OpFlag (Some 4) 1;
   OpFlag (Some 5) 1; OpFlag (Some 6) 1;
   OpSetStatus (Some 2) 1 {["status" := "Resolved"]}].

(** * Properties *)

(** ** Primary keys *)

Lemma next_id_above (keys : list Z) (k : Z) : k ∈ keys → k < next_id keys.
Proof.
  unfold next_id. induction keys as [|k' keys IH]; intros Hin.
  - by apply elem_of_nil in Hin.
  - apply elem_of_cons in Hin as [->|Hin]; simpl; [lia|].
    specialize (IH Hin). lia.
Qed.

Lemma next_issue_id_fresh (db : Db) : issues db !! next_issue_id db = None.
Proof.
  destruct (issues db !! next_issue_id db) as [issue|] eqn:Hl; [|done].
  apply elem_of_map_to_list in Hl.
  assert (next_issue_id db ∈ (map_to_list (issues db)).*1) as Hin.
  { apply list_elem_of_fmap. by exists (next_issue_id db, issue). }
  apply next_id_above in Hin. unfold next_issue_id in Hin. lia.
Qed.

(** ** The log of an issue under the writes of the routes *)

Lemma logs_of_put_issue (db : Db) (i j : Z) (issue : Issue.t) :
  logs_of (put_issue i issue db) j = logs_of db j.
Proof. reflexivity. Qed.

Lemma logs_of_add_log_eq (db : Db) (i : Z) (s : string) (a : option Z) :
  logs_of (add_log i s a db) i =
  logs_of db i ++ [StatusLog.mk (next_log_id db) (Some i) s a].
Proof.
  unfold logs_of, add_log; simpl. rewrite filter_app. f_equal.
  rewrite filter_cons_True; [done|]. done.
Qed.

Lemma logs_of_add_log_ne (db : Db) (i j : Z) (s : string) (a : option Z) :
  i ≠ j → logs_of (add_log i s a db) j = logs_of db j.
Proof.
  intros Hne. unfold logs_of, add_log; simpl. rewrite filter_app.
  rewrite filter_cons_False; [by rewrite filter_nil, app_nil_r|].
  simpl. congruence.
Qed.

Lemma get_or_404_Some (db : Db) (i : Z) (issue : Issue.t) :
  issues db !! i = Some issue → get_or_404 db i = inr issue.
Proof. unfold get_or_404. by intros ->. Qed.

Lemma get_or_404_None (db : Db) (i : Z) :
  issues db !! i = None → get_or_404 db i = inl (Reply 404 BAbort).
Proof. unfold get_or_404. by intros ->. Qed.

(** ** Upvotes *)

Lemma upvote_issue_found (db : Db) (u i : Z) (issue : Issue.t) :
  issues db !! i = Some issue →
  upvote_issue db (Some u) i =
    (put_issue i (Issue.set_upvotes (Issue.upvotes issue + 1) issue) db,
     Reply 200 (BUpvotes (Issue.upvotes issue + 1))).
Proof.
  intros Hi. unfold upvote_issue. by rewrite (get_or_404_Some _ _ _ Hi).
Qed.

Lemma upvotes_by_found (principals : list Z) :
  ∀ (db : Db) (i : Z) (issue : Issue.t),
    issues db !! i = Some issue →
    issues (upvotes_by db i principals) !! i =
      Some (Issue.set_upvotes
              (Issue.upvotes issue + Z.of_nat (length principals)) issue).
Proof.
  induction principals as [|u us IH]; intros db i issue Hi.
  - simpl. rewrite Hi, Z.add_0_r. by destruct issue.
  - change (upvotes_by db i (u :: us))
      with (upvotes_by (upvote_issue db (Some u) i).1 i us).
    rewrite (upvote_issue_found db u i issue Hi). cbn [fst].
    erewrite IH; [|apply lookup_insert_eq].
    unfold Issue.set_upvotes; simpl. do 2 f_equal. lia.
Qed.

(** C9: on an issue with no upvote yet, N upvote requests (whoever sends
    them, the same principal or not) leave upvotes = N; and the request
    after them, like every request, adds exactly one and answers with the
    new count N + 1. *)
Theorem upvote_counts_every_call
    (db : Db) (i : Z) (issue : Issue.t) (principals : list Z) :
  issues db !! i = Some issue →
  Issue.upvotes issue = 0 →
  let n := Z.of_nat (length principals) in
  let db' := upvotes_by db i principals in
  issues db' !! i = Some (Issue.set_upvotes n issue)
  ∧ ∀ u : Z,
      upvote_issue db' (Some u) i =
        (put_issue i (Issue.set_upvotes (n + 1) issue) db',
         Reply 200 (BUpvotes (n + 1))).
Proof.
  intros Hi H0 n db'.
  assert (issues db' !! i = Some (Issue.set_upvotes n issue)) as Hn.
  { subst db' n. rewrite (upvotes_by_found _ _ _ _ Hi). by rewrite H0. }
  split; [exact Hn|]. intros u.
  by rewrite (upvote_issue_found db' u i _ Hn).
Qed.

Lemma sample_db_issue : issues sample_db !! 1 = Some sample_issue.
Proof. vm_compute. reflexivity. Qed.

Lemma upvote_counts_witness :
  issues (upvotes_by sample_db 1 [3; 3; 1]) !! 1 =
    Some (Issue.set_upvotes 3 sample_issue)
  ∧ ∀ u : Z,
      upvote_issue (upvotes_by sample_db 1 [3; 3; 1]) (Some u) 1 =
        (put_issue 1 (Issue.set_upvotes 4 sample_issue)
           (upvotes_by sample_db 1 [3; 3; 1]),
         Reply 200 (BUpvotes 4)).
Proof.
  apply (upvote_counts_every_call sample_db 1 sample_issue [3; 3; 1]).
  - vm_compute. reflexivity.
  - reflexivity.
Defined.

(** ** Flags *)

Lemma flag_issue_found (db : Db) (u i : Z) (issue : Issue.t) :
  issues db !! i = Some issue →
  flag_issue db (Some u) i =
    if 5 <=? Issue.flags issue + 1 then
      (add_log i "Flagged" None
         (put_issue i (Issue.set_status "Flagged"
                         (Issue.set_flags (Issue.flags issue + 1) issue)) db),
       Reply 200 (BFlags (Issue.flags issue + 1)))
    else
      (put_issue i (Issue.set_flags (Issue.flags issue + 1) issue) db,
       Reply 200 (BFlags (Issue.flags issue + 1))).
Proof.
  intros Hi. unfold flag_issue. by rewrite (get_or_404_Some _ _ _ Hi).
Qed.

Lemma logs_with_status_add_log (db : Db) (i : Z) (s : string) (a : option Z) :
  logs_with_status (add_log i s a db) i s =
  logs_with_status db i s ++ [StatusLog.mk (next_log_id db) (Some i) s a].
Proof.
  unfold logs_with_status. rewrite logs_of_add_log_eq, filter_app. f_equal.
  by rewrite filter_cons_True.
Qed.

Lemma logs_with_status_put_issue (db : Db) (i j : Z) (issue : Issue.t)
    (s : string) :
  logs_with_status (put_issue i issue db) j s = logs_with_status db j s.
Proof. reflexivity. Qed.

(** After [n] flag requests on an issue that had [f] flags: the count is
    [f + n], the status is Flagged as soon as the count has reached 5, and
    every request that found the count at 5 or more after its increment
    has appended one Flagged entry. *)
Lemma flags_by_found (principals : list Z) :
  ∀ (db : Db) (i : Z) (issue : Issue.t),
    issues db !! i = Some issue →
    let n := Z.of_nat (length principals) in
    let f := Issue.flags issue in
    ∃ issue',
      issues (flags_by db i principals) !! i = Some issue'
      ∧ Issue.flags issue' = f + n
      ∧ (0 < n → 5 ≤ f + n → Issue.status issue' = "Flagged")
      ∧ Z.of_nat (length (logs_with_status (flags_by db i principals) i "Flagged"))
        = Z.of_nat (length (logs_with_status db i "Flagged"))
          + (Z.max 0 (f + n - 4) - Z.max 0 (f - 4)).
Proof.
  induction principals as [|u us IH]; intros db i issue Hi n f; subst n f.
  - exists issue. simpl. repeat split; [done|lia|lia|lia].
  - change (flags_by db i (u :: us))
      with (flags_by (flag_issue db (Some u) i).1 i us).
    rewrite (flag_issue_found db u i issue Hi).
    destruct (5 <=? Issue.flags issue + 1) eqn:H5; cbn [fst].
    + apply Z.leb_le in H5.
      edestruct (IH (add_log i "Flagged" None
                       (put_issue i (Issue.set_status "Flagged"
                          (Issue.set_flags (Issue.flags issue + 1) issue)) db))
                    i) as (issue' & Hl & Hf & Hs & Hc).
      { apply lookup_insert_eq. }
      exists issue'.
      rewrite Hl, Hf, Hc, logs_with_status_add_log, logs_with_status_put_issue.
      rewrite length_app.
      cbn [length Issue.flags Issue.set_status Issue.set_flags] in *.
      repeat split; [lia| |lia].
      intros _ _. destruct us as [|u' us'].
      * simpl in Hl. rewrite lookup_insert_eq in Hl. by inversion Hl.
      * apply Hs; rewrite length_cons in *; lia.
    + apply Z.leb_gt in H5.
      edestruct (IH (put_issue i (Issue.set_flags (Issue.flags issue + 1) issue) db)
                    i) as (issue' & Hl & Hf & Hs & Hc).
      { apply lookup_insert_eq. }
      exists issue'. rewrite Hl, Hf, Hc, logs_with_status_put_issue.
      cbn [length Issue.flags Issue.set_flags] in *.
      repeat split; [lia| |lia].
      intros _ Hge. destruct us as [|u' us'].
      * simpl in Hge. lia.
      * apply Hs; rewrite length_cons in *; lia.
Qed.

Lemma flags_by_snoc (db : Db) (i : Z) (principals : list Z) (u : Z) :
  flags_by db i (principals ++ [u]) =
  (flag_issue (flags_by db i principals) (Some u) i).1.
Proof. unfold flags_by. by rewrite foldl_app. Qed.

(** C1, as the code has it: on an issue with no flag yet, five flag
    requests leave the status Flagged and exactly one Flagged entry in its
    log; a sixth request leaves the status Flagged and appends one more
    Flagged entry, two in all. *)
Theorem flag_threshold_logs_every_call
    (db : Db) (i : Z) (issue : Issue.t) (principals : list Z) (u6 : Z) :
  issues db !! i = Some issue →
  Issue.flags issue = 0 →
  Issue.status issue = "Reported" →
  logs_with_status db i "Flagged" = [] →
  length principals = 5%nat →
  let db5 := flags_by db i principals in
  let db6 := (flag_issue db5 (Some u6) i).1 in
  Issue.status <$> issues db5 !! i = Some "Flagged"
  ∧ length (logs_with_status db5 i "Flagged") = 1%nat
  ∧ Issue.status <$> issues db6 !! i = Some "Flagged"
  ∧ length (logs_with_status db6 i "Flagged") = 2%nat.
Proof.
  intros Hi Hf _ Hlogs Hlen db5 db6.
  destruct (flags_by_found principals db i issue Hi)
    as (i5 & Hl5 & _ & Hs5 & Hc5).
  destruct (flags_by_found (principals ++ [u6]) db i issue Hi)
    as (i6 & Hl6 & _ & Hs6 & Hc6).
  rewrite flags_by_snoc in Hl6, Hc6. fold db5 in Hl5, Hc5, Hl6, Hc6.
  fold db6 in Hl6, Hc6.
  rewrite length_app, Hf, Hlogs in *. rewrite Hlen in *. simpl in Hs5, Hs6.
  rewrite Hl5, Hl6. simpl. rewrite Hs5, Hs6 by lia.
  simpl length in Hc5, Hc6. repeat split; lia.
Qed.

Lemma flag_threshold_logs_witness :
  let db5 := flags_by sample_db 1 [1; 2; 3; 4; 5] in
  let db6 := (flag_issue db5 (Some 6) 1).1 in
  Issue.status <$> issues db5 !! 1 = Some "Flagged"
  ∧ length (logs_with_status db5 1 "Flagged") = 1%nat
  ∧ Issue.status <$> issues db6 !! 1 = Some "Flagged"
  ∧ length (logs_with_status db6 1 "Flagged") = 2%nat.
Proof.
  apply (flag_threshold_logs_every_call sample_db 1 sample_issue
           [1; 2; 3; 4; 5] 6).
  - vm_compute. reflexivity.
  - reflexivity.
  - reflexivity.
  - vm_compute. reflexivity.
  - reflexivity.
Defined.

(** Against C1 as written: the sixth flag request of six principals finds
    the issue Flagged with one Flagged entry and appends a second one. *)
Lemma flag_sixth_call_appends_log :
  let db5 := flags_by sample_db 1 [1; 2; 3; 4; 5] in
  let db6 := (flag_issue db5 (Some 6) 1).1 in
  Issue.status <$> issues db5 !! 1 = Some "Flagged"
  ∧ logs_with_status db5 1 "Flagged" = [StatusLog.mk 2 (Some 1) "Flagged" None]
  ∧ logs_with_status db6 1 "Flagged" =
      [StatusLog.mk 2 (Some 1) "Flagged" None;
       StatusLog.mk 3 (Some 1) "Flagged" None]
  ∧ logs_with_status db6 1 "Flagged" ≠ logs_with_status db5 1 "Flagged".
Proof. vm_compute. repeat split; discriminate. Qed.

(** ** Delete *)

Lemma orphan_image_gone (i : Z) (imgs : list IssueImage.t) :
  filter (λ img, IssueImage.issue_id img = Some i) (orphan_image i <$> imgs) = [].
Proof.
  induction imgs as [|img imgs IH]; [done|].
  rewrite fmap_cons, filter_cons_False; [done|].
  unfold orphan_image. case_bool_decide; simpl; congruence.
Qed.

Lemma orphan_log_gone (i : Z) (logs : list StatusLog.t) :
  filter (λ log, StatusLog.issue_id log = Some i) (orphan_log i <$> logs) = [].
Proof.
  induction logs as [|log logs IH]; [done|].
  rewrite fmap_cons, filter_cons_False; [done|].
  unfold orphan_log. case_bool_decide; simpl; congruence.
Qed.

Lemma orphan_image_other (i j : Z) (imgs : list IssueImage.t) :
  j ≠ i →
  filter (λ img, IssueImage.issue_id img = Some j) (orphan_image i <$> imgs) =
  filter (λ img, IssueImage.issue_id img = Some j) imgs.
Proof.
  intros Hne. induction imgs as [|img imgs IH]; [done|].
  rewrite fmap_cons. unfold orphan_image at 1. case_bool_decide as Hi.
  - rewrite filter_cons_False by (simpl; congruence).
    rewrite filter_cons_False by congruence. done.
  - destruct (decide (IssueImage.issue_id img = Some j)) as [Hj|Hj].
    + rewrite !filter_cons_True by done. by rewrite IH.
    + rewrite !filter_cons_False by done. done.
Qed.

Lemma orphan_log_other (i j : Z) (logs : list StatusLog.t) :
  j ≠ i →
  filter (λ log, StatusLog.issue_id log = Some j) (orphan_log i <$> logs) =
  filter (λ log, StatusLog.issue_id log = Some j) logs.
Proof.
  intros Hne. induction logs as [|log logs IH]; [done|].
  rewrite fmap_cons. unfold orphan_log at 1. case_bool_decide as Hi.
  - rewrite filter_cons_False by (simpl; congruence).
    rewrite filter_cons_False by congruence. done.
  - destruct (decide (StatusLog.issue_id log = Some j)) as [Hj|Hj].
    + rewrite !filter_cons_True by done. by rewrite IH.
    + rewrite !filter_cons_False by done. done.
Qed.

Lemma delete_issue_admin (db : Db) (uid i : Z) (user : User.t) (issue : Issue.t) :
  users db !! uid = Some user →
  User.is_admin user = true →
  issues db !! i = Some issue →
  delete_issue db (Some uid) i =
    (mkDb (users db) (delete i (issues db))
          (orphan_image i <$> issue_images db)
          (orphan_log i <$> status_logs db),
     Reply 200 (BMessage "Issue deleted")).
Proof.
  intros Hu Ha Hi. unfold delete_issue.
  by rewrite Hu, Ha, (get_or_404_Some _ _ _ Hi).
Qed.

(** C3, as the code has it: the delete of an existing issue by an admin
    removes the issue row, so that a later get of the id answers 404 and
    no image or log row refers to the id any more.  The image and log rows
    of the issue are not removed: every row stays in its table, with the
    same key, file name, status and admin, and with a null issue
    reference.  The rows of the other issues are as before. *)
Theorem delete_issue_detaches_children
    (db : Db) (uid i : Z) (user : User.t) (issue : Issue.t) :
  users db !! uid = Some user →
  User.is_admin user = true →
  issues db !! i = Some issue →
  let db' := (delete_issue db (Some uid) i).1 in
  (delete_issue db (Some uid) i).2 = Reply 200 (BMessage "Issue deleted")
  ∧ get_or_404 db' i = inl (Reply 404 BAbort)
  ∧ images_of db' i = [] ∧ logs_of db' i = []
  ∧ issue_images db' = orphan_image i <$> issue_images db
  ∧ status_logs db' = orphan_log i <$> status_logs db
  ∧ length (issue_images db') = length (issue_images db)
  ∧ length (status_logs db') = length (status_logs db)
  ∧ (∀ j, j ≠ i →
       issues db' !! j = issues db !! j
       ∧ images_of db' j = images_of db j
       ∧ logs_of db' j = logs_of db j).
Proof.
  intros Hu Ha Hi db'. subst db'.
  rewrite (delete_issue_admin db uid i user issue Hu Ha Hi). cbn [fst snd].
  split; [done|]. split.
  { apply get_or_404_None. simpl. apply lookup_delete_eq. }
  unfold images_of, logs_of. cbn [issue_images status_logs issues].
  rewrite orphan_image_gone, orphan_log_gone, !length_fmap.
  repeat split; try done.
  - by apply lookup_delete_ne.
  - by apply orphan_image_other.
  - by apply orphan_log_other.
Qed.

Lemma delete_issue_detaches_witness :
  let db' := (delete_issue sample_db_photo (Some 2) 1).1 in
  (delete_issue sample_db_photo (Some 2) 1).2 = Reply 200 (BMessage "Issue deleted")
  ∧ get_or_404 db' 1 = inl (Reply 404 BAbort)
  ∧ images_of db' 1 = [] ∧ logs_of db' 1 = []
  ∧ issue_images db' = orphan_image 1 <$> issue_images sample_db_photo
  ∧ status_logs db' = orphan_log 1 <$> status_logs sample_db_photo
  ∧ length (issue_images db') = length (issue_images sample_db_photo)
  ∧ length (status_logs db') = length (status_logs sample_db_photo)
  ∧ (∀ j, j ≠ 1 →
       issues db' !! j = issues sample_db_photo !! j
       ∧ images_of db' j = images_of sample_db_photo j
       ∧ logs_of db' j = logs_of sample_db_photo j).
Proof.
  apply (delete_issue_detaches_children sample_db_photo 2 1
           (User.mk "root" true) sample_issue).
  - vm_compute. reflexivity.
  - reflexivity.
  - vm_compute. reflexivity.
Defined.

(** Against C3 as written: after the delete of the only issue, its image
    row and its log row are still in their tables. *)
Lemma delete_issue_keeps_children :
  let db' := (delete_issue sample_db_photo (Some 2) 1).1 in
  images_of sample_db_photo 1 =
    [IssueImage.mk 1 "00000000-0000-4000-8000-000000000000.png" (Some 1)]
  ∧ logs_of sample_db_photo 1 = [StatusLog.mk 1 (Some 1) "Reported" None]
  ∧ (delete_issue sample_db_photo (Some 2) 1).2 =
      Reply 200 (BMessage "Issue deleted")
  ∧ issue_images db' =
      [IssueImage.mk 1 "00000000-0000-4000-8000-000000000000.png" None]
  ∧ status_logs db' = [StatusLog.mk 1 None "Reported" None].
Proof. vm_compute. repeat split. Qed.

(** ** Serialisation *)

Lemma format_issue_known (db : Db) (i : Z) (issue : Issue.t) (cur : option Z) :
  owner_known db issue →
  ∃ v, format_issue db i issue cur = inr v
       ∧ v_id v = i
       ∧ v_title v = Issue.title issue
       ∧ v_description v = Issue.description issue
       ∧ v_category v = Issue.category issue
       ∧ v_status v = Issue.status issue
       ∧ v_upvotes v = Issue.upvotes issue
       ∧ v_flags v = Issue.flags issue
       ∧ v_latitude v = Issue.latitude issue
       ∧ v_longitude v = Issue.longitude issue.
Proof.
  unfold owner_known, format_issue, user_ref. intros [Hanon|[u Hu]].
  - rewrite Hanon. simpl. eexists. split; [reflexivity|]. by simpl.
  - destruct (Issue.is_anonymous issue); simpl.
    + eexists. split; [reflexivity|]. by simpl.
    + rewrite Hu. simpl. eexists. split; [reflexivity|]. by simpl.
Qed.

(** ** Status update by an admin *)

Lemma existsb_eqb_elem_of (s : string) (l : list string) :
  existsb (String.eqb s) l = true ↔ s ∈ l.
Proof.
  rewrite existsb_exists. split.
  - intros (x & Hin & Heq). apply String.eqb_eq in Heq as ->.
    by apply list_elem_of_In.
  - intros Hin. exists s. split; [by apply list_elem_of_In|].
    apply String.eqb_refl.
Qed.

Lemma settable_truthy (s : string) : s ∈ settable_statuses → truthy s = true.
Proof.
  unfold settable_statuses. rewrite !elem_of_cons, elem_of_nil.
  intros [->|[->|[->|[]]]]; reflexivity.
Qed.

(** C7: the status route answers 403 to every registered principal who is
    no admin.  For an admin and an existing issue it answers 400 unless the
    new status is one of Reported, In Progress, Resolved; so Flagged cannot
    be set here.  With one of the three it writes the status, whatever the
    old one was (Flagged too), and appends exactly one log entry, whose
    admin is the acting admin. *)
Theorem update_issue_status_rules
    (db : Db) (uid i : Z) (user : User.t) (data : gmap string string) :
  users db !! uid = Some user →
  (User.is_admin user = false →
     update_issue_status db (Some uid) i data =
       (db, Reply 403 (BError "Unauthorized")))
  ∧ (User.is_admin user = true →
     ∀ issue, issues db !! i = Some issue →
       ((∀ s, data !! "status" = Some s → s ∉ settable_statuses) →
          update_issue_status db (Some uid) i data =
            (db, Reply 400 (BError "Invalid status")))
       ∧ ("Flagged" ∉ settable_statuses)
       ∧ (∀ s, data !! "status" = Some s → s ∈ settable_statuses →
            let r := update_issue_status db (Some uid) i data in
            r.1 = add_log i s (Some uid)
                    (put_issue i (Issue.set_status s issue) db)
            ∧ issues r.1 !! i = Some (Issue.set_status s issue)
            ∧ status_logs r.1 =
                status_logs db ++
                  [StatusLog.mk (next_log_id db) (Some i) s (Some uid)]
            ∧ (owner_known db issue →
                 ∃ v, r.2 = Reply 200 (BIssue v) ∧ v_status v = s))).
Proof.
  intros Hu. split.
  - intros Ha. unfold update_issue_status. by rewrite Hu, Ha.
  - intros Ha issue Hi. unfold update_issue_status.
    rewrite Hu, Ha, (get_or_404_Some _ _ _ Hi). cbn [negb].
    split; [|split].
    + intros Hbad. destruct (data !! "status") as [s|] eqn:Hs; [|done].
      specialize (Hbad s eq_refl).
      destruct (existsb (String.eqb s) settable_statuses) eqn:Hex.
      * by apply existsb_eqb_elem_of in Hex.
      * by rewrite orb_true_r.
    + unfold settable_statuses. rewrite !elem_of_cons, elem_of_nil.
      intros [?|[?|[?|[]]]]; discriminate.
    + intros s Hs Hin. cbv zeta. rewrite Hs.
      rewrite (settable_truthy s Hin).
      rewrite (proj2 (existsb_eqb_elem_of s _) Hin). cbn [negb orb].
      set (issue' := Issue.set_status s issue).
      set (db' := add_log i s (Some uid) (put_issue i issue' db)).
      assert (∀ x : Exn + IssueView,
                (match x with
                 | inl e => (db', Unhandled e)
                 | inr v => (db', Reply 200 (BIssue v))
                 end).1 = db') as Hfst by (by intros [?|?]).
      rewrite Hfst. split; [done|]. split.
      { subst db'. simpl. apply lookup_insert_eq. }
      split; [done|]. intros Hknown.
      destruct (format_issue_known db' i issue' None Hknown)
        as (v & -> & Hfields).
      exists v. split; [done|].
      by destruct Hfields as (_ & _ & _ & _ & -> & _).
Qed.

Lemma sample_db_flagged_issue :
  issues sample_db_flagged !! 1 = Some sample_issue_flagged.
Proof. vm_compute. reflexivity. Qed.

Lemma update_issue_status_witness :
  update_issue_status sample_db_flagged (Some 3) 1 {["status" := "Resolved"]} =
    (sample_db_flagged, Reply 403 (BError "Unauthorized"))
  ∧ update_issue_status sample_db_flagged (Some 2) 1 {["status" := "Flagged"]} =
      (sample_db_flagged, Reply 400 (BError "Invalid status"))
  ∧ issues (update_issue_status sample_db_flagged (Some 2) 1
              {["status" := "Resolved"]}).1 !! 1 =
      Some (Issue.set_status "Resolved" sample_issue_flagged)
  ∧ status_logs (update_issue_status sample_db_flagged (Some 2) 1
                   {["status" := "Resolved"]}).1 =
      status_logs sample_db_flagged ++
        [StatusLog.mk (next_log_id sample_db_flagged) (Some 1) "Resolved" (Some 2)].
Proof.
  assert (users sample_db_flagged !! 3 = Some (User.mk "ravi" false)) as H3
    by (vm_compute; reflexivity).
  assert (users sample_db_flagged !! 2 = Some (User.mk "root" true)) as H2
    by (vm_compute; reflexivity).
  split; [|split].
  - apply (proj1 (update_issue_status_rules sample_db_flagged 3 1 _
                    {["status" := "Resolved"]} H3)). reflexivity.
  - apply (proj2 (update_issue_status_rules sample_db_flagged 2 1 _
                    {["status" := "Flagged"]} H2) eq_refl
             sample_issue_flagged sample_db_flagged_issue).
    intros s Hs. vm_compute in Hs. inversion Hs as [Heq].
    unfold settable_statuses. rewrite !elem_of_cons, elem_of_nil.
    intros [?|[?|[?|[]]]]; discriminate.
  - destruct (proj2 (update_issue_status_rules sample_db_flagged 2 1 _
                       {["status" := "Resolved"]} H2) eq_refl
                sample_issue_flagged sample_db_flagged_issue)
      as (_ & _ & Hok).
    destruct (Hok "Resolved") as (_ & Hi & Hl & _).
    + vm_compute. reflexivity.
    + unfold settable_statuses. rewrite !elem_of_cons. auto.
    + split; [exact Hi | exact Hl].
Defined.

(** ** Edit *)

Lemma apply_fields_frame (data : gmap string string) (issue : Issue.t) :
  let issue' := apply_fields data issue in
  Issue.title issue' = default (Issue.title issue) (data !! "title")
  ∧ Issue.description issue' =
      default (Issue.description issue) (data !! "description")
  ∧ Issue.category issue' = default (Issue.category issue) (data !! "category")
  ∧ Issue.status issue' = Issue.status issue
  ∧ Issue.upvotes issue' = Issue.upvotes issue
  ∧ Issue.flags issue' = Issue.flags issue
  ∧ Issue.latitude issue' = Issue.latitude issue
  ∧ Issue.longitude issue' = Issue.longitude issue
  ∧ Issue.user_id issue' = Issue.user_id issue
  ∧ Issue.is_anonymous issue' = Issue.is_anonymous issue.
Proof.
  unfold apply_fields.
  destruct (data !! "title"), (data !! "description"), (data !! "category");
    simpl; repeat split.
Qed.

Lemma update_issue_allowed (db : Db) (uid i : Z) (issue : Issue.t)
    (data : gmap string string) :
  issues db !! i = Some issue →
  Issue.user_id issue = uid
  ∨ (∃ user, users db !! uid = Some user ∧ User.is_admin user = true) →
  let issue' := apply_fields data issue in
  let db' := put_issue i issue' db in
  update_issue db (Some uid) i data =
    match format_issue db' i issue' (Some uid) with
    | inl e => (db', Unhandled e)
    | inr v => (db', Reply 200 (BIssue v))
    end.
Proof.
  intros Hi Hauth. unfold update_issue.
  rewrite (get_or_404_Some _ _ _ Hi). cbv zeta.
  case_bool_decide as Hown; [|done].
  destruct Hauth as [?|(user & -> & ->)]; [done|]. done.
Qed.

(** C8: an edit by a registered principal who is neither the owner of the
    issue nor an admin answers 403 and leaves the database as it was.  An
    edit by the owner or by an admin writes the fields of title,
    description and category that the request carries and nothing else:
    status, upvotes, flags, coordinates, owner and anonymity of the issue,
    the image and log tables, the users and every other issue are as
    before. *)
Theorem update_issue_frame
    (db : Db) (uid i : Z) (issue : Issue.t) (data : gmap string string) :
  issues db !! i = Some issue →
  (∀ user, Issue.user_id issue ≠ uid → users db !! uid = Some user →
     User.is_admin user = false →
     update_issue db (Some uid) i data =
       (db, Reply 403 (BError "Unauthorized")))
  ∧ (Issue.user_id issue = uid
     ∨ (∃ user, users db !! uid = Some user ∧ User.is_admin user = true) →
     let r := update_issue db (Some uid) i data in
     ∃ issue',
       issues r.1 !! i = Some issue'
       ∧ Issue.title issue' = default (Issue.title issue) (data !! "title")
       ∧ Issue.description issue' =
           default (Issue.description issue) (data !! "description")
       ∧ Issue.category issue' =
           default (Issue.category issue) (data !! "category")
       ∧ Issue.status issue' = Issue.status issue
       ∧ Issue.upvotes issue' = Issue.upvotes issue
       ∧ Issue.flags issue' = Issue.flags issue
       ∧ Issue.latitude issue' = Issue.latitude issue
       ∧ Issue.longitude issue' = Issue.longitude issue
       ∧ Issue.user_id issue' = Issue.user_id issue
       ∧ Issue.is_anonymous issue' = Issue.is_anonymous issue
       ∧ issue_images r.1 = issue_images db
       ∧ status_logs r.1 = status_logs db
       ∧ users r.1 = users db
       ∧ (∀ j, j ≠ i → issues r.1 !! j = issues db !! j)
       ∧ (owner_known db issue →
            ∃ v, r.2 = Reply 200 (BIssue v)
                 ∧ v_title v = Issue.title issue'
                 ∧ v_status v = Issue.status issue)).
Proof.
  intros Hi. split.
  - intros user Hne Hu Ha. unfold update_issue.
    rewrite (get_or_404_Some _ _ _ Hi). cbv zeta.
    rewrite bool_decide_eq_true_2 by done. by rewrite Hu, Ha.
  - intros Hauth r. subst r.
    rewrite (update_issue_allowed db uid i issue data Hi Hauth). cbv zeta.
    set (issue' := apply_fields data issue).
    set (db' := put_issue i issue' db).
    assert (∀ x : Exn + IssueView,
              (match x with
               | inl e => (db', Unhandled e)
               | inr v => (db', Reply 200 (BIssue v))
               end).1 = db') as Hfst by (by intros [?|?]).
    rewrite Hfst. exists issue'.
    destruct (apply_fields_frame data issue)
      as (Ht & Hd & Hc & Hs & Hup & Hf & Hla & Hlo & Hu & Han).
    fold issue' in Ht, Hd, Hc, Hs, Hup, Hf, Hla, Hlo, Hu, Han.
    split; [subst db'; simpl; apply lookup_insert_eq|].
    do 10 (split; [assumption|]).
    do 3 (split; [reflexivity|]).
    split; [intros j Hj; subst db'; simpl; by apply lookup_insert_ne|].
    intros Hknown.
    assert (owner_known db' issue') as Hknown'.
    { unfold owner_known in *. rewrite Hu, Han. exact Hknown. }
    destruct (format_issue_known db' i issue' (Some uid) Hknown')
      as (v & -> & _ & Hvt & _ & _ & Hvs & _).
    exists v. split; [done|]. split; [done|]. by rewrite Hvs.
Qed.

Lemma update_issue_frame_witness :
  update_issue sample_db (Some 3) 1 {["title" := "Crater"]} =
    (sample_db, Reply 403 (BError "Unauthorized"))
  ∧ ∃ issue',
      issues (update_issue sample_db (Some 1) 1 {["title" := "Crater"]}).1 !! 1
        = Some issue'
      ∧ Issue.title issue' = "Crater"
      ∧ Issue.description issue' = "Deep one"
      ∧ Issue.status issue' = "Reported".
Proof.
  destruct (update_issue_frame sample_db 3 1 sample_issue
              {["title" := "Crater"]} sample_db_issue) as [Hforbid _].
  destruct (update_issue_frame sample_db 1 1 sample_issue
              {["title" := "Crater"]} sample_db_issue) as [_ Hok].
  split.
  - apply (Hforbid (User.mk "ravi" false)).
    + vm_compute. discriminate.
    + vm_compute. reflexivity.
    + reflexivity.
  - destruct Hok as (issue' & Hl & Ht & Hd & _ & Hs & _).
    + left. reflexivity.
    + exists issue'. split; [exact Hl|]. split; [exact Ht|].
      split; [exact Hd|exact Hs].
Defined.

(** ** Listing *)

Lemma float_arg_inl (E : Env) (v : option string) :
  (∃ e, float_arg E v = inl e) ↔ bad_float_arg E v.
Proof.
  unfold float_arg, bad_float_arg. split.
  - intros [e He]. destruct v as [s|]; [|by left].
    right. exists s. split; [done|]. by destruct (py_float E s).
  - intros [->|(s & -> & ->)]; eauto.
Qed.


Lemma get_issues_400_iff (E : Env) (db : Db) (identity : option Z)
    (args : gmap string string) :
  get_issues E db identity args = Reply 400 (BError "Invalid coordinates")
  ↔ bad_float_arg E (args !! "lat") ∨ bad_float_arg E (args !! "lon").
Proof.
  rewrite <- !float_arg_inl. unfold get_issues.
  destruct (float_arg E (args !! "lat")) as [e1|x],
           (float_arg E (args !! "lon")) as [e2|y].
  1-3: split; [eauto|done].
  split.
  - destruct (radius_arg E args); [done|].
    destruct (nearby_issues _ _ _ _ _ _ _); [done|].
    by destruct (format_all _ _ _).
  - by intros [[? ?]|[? ?]].
Qed.

Lemma elem_of_filter_by (col : Issue.t → string) (v : option string)
    (query : list (Z * Issue.t)) (r : Z * Issue.t) :
  r ∈ filter_by col v query ↔ r ∈ query ∧ passes_filter v (col r.2).
Proof.
  unfold filter_by, passes_filter, truthy. destruct v as [s|]; [|tauto].
  destruct (String.eqb s "") eqn:Heq; simpl.
  - apply String.eqb_eq in Heq. tauto.
  - apply String.eqb_neq in Heq. rewrite list_elem_of_filter. tauto.
Qed.

Lemma elem_of_filtered_issues (db : Db) (category status : option string)
    (j : Z) (issue : Issue.t) :
  (j, issue) ∈ filtered_issues db category status
  ↔ issues db !! j = Some issue
    ∧ passes_filter category (Issue.category issue)
    ∧ passes_filter status (Issue.status issue).
Proof.
  unfold filtered_issues. rewrite !elem_of_filter_by, elem_of_map_to_list.
  simpl. tauto.
Qed.

Lemma within_radius_defined (E : Env) (user_lat user_lon radius : float)
    (rows : list (Z * Issue.t)) :
  (∀ r, r ∈ rows →
     is_Some (geodesic_km E user_lat user_lon
                (Issue.latitude r.2) (Issue.longitude r.2))) →
  ∃ out, within_radius E user_lat user_lon radius rows = inr out
         ∧ ∀ r, r ∈ out ↔
             r ∈ rows
             ∧ ∃ km, geodesic_km E user_lat user_lon
                       (Issue.latitude r.2) (Issue.longitude r.2) = Some km
                     ∧ (km <=? radius)%float = true.
Proof.
  induction rows as [|r rows IH]; intros Hdef.
  - exists []. split; [done|]. intros r. rewrite elem_of_nil. tauto.
  - destruct IH as (out & Hout & Hmem).
    { intros r' Hr'. apply Hdef. by right. }
    destruct (Hdef r) as [km Hkm]; [by left|].
    simpl. unfold is_within_radius. rewrite Hkm, Hout. simpl.
    eexists. split; [reflexivity|]. intros r'.
    destruct (km <=? radius)%float eqn:Hle.
    + rewrite !elem_of_cons, Hmem. split.
      * intros [->|[? ?]]; [|tauto]. split; [by left|]. eauto.
      * intros [[->|?] ?]; tauto.
    + rewrite elem_of_cons, Hmem. split; [tauto|].
      intros [[->|?] (km' & Hkm' & Hle')]; [|eauto].
      congruence.
Qed.

Lemma format_all_known (db : Db) (cur : option Z) (rows : list (Z * Issue.t)) :
  (∀ r, r ∈ rows → owner_known db r.2) →
  ∃ vs, format_all db cur rows = inr vs ∧ v_id <$> vs = rows.*1.
Proof.
  induction rows as [|r rows IH]; intros Hknown.
  - by exists [].
  - destruct IH as (vs & Hvs & Hids).
    { intros r' Hr'. apply Hknown. by right. }
    destruct (format_issue_known db r.1 r.2 cur) as (v & Hv & Hid & _).
    { apply Hknown. by left. }
    exists (v :: vs). split.
    + simpl. by rewrite Hv, Hvs.
    + rewrite !fmap_cons. by rewrite Hid, Hids.
Qed.

Lemma float_eqb_leb (x y : float) :
  (x =? y)%float = true → (x <=? y)%float = true.
Proof.
  rewrite FloatAxioms.eqb_spec, FloatAxioms.leb_spec. unfold SFeqb, SFleb.
  by destruct (SFcompare _ _) as [[]|].
Qed.

(** C6, as the code has it: when the query parameters parse and the
    distance raises on none of the stored issues that pass the filters, an
    issue is in the listing iff it is stored, its distance from the centre
    is at most the radius, and it equals each of the category and status
    parameters that is present and not empty (an empty parameter filters
    nothing).  The bound is inclusive: a distance equal to the radius
    passes, and an issue at the centre itself passes for every radius from
    0 on, radius 0 included.  When every reporter can be named the
    response is 200 and lists exactly the selected issues. *)
Theorem listing_selects_within_radius
    (E : Env) (db : Db) (identity : option Z) (args : gmap string string)
    (user_lat user_lon radius : float) :
  float_arg E (args !! "lat") = inr user_lat →
  float_arg E (args !! "lon") = inr user_lon →
  radius_arg E args = inr radius →
  (∀ j issue, issues db !! j = Some issue →
     passes_filter (args !! "category") (Issue.category issue) →
     passes_filter (args !! "status") (Issue.status issue) →
     is_Some (geodesic_km E user_lat user_lon
                (Issue.latitude issue) (Issue.longitude issue))) →
  ∃ rows,
    nearby_issues E db user_lat user_lon radius
      (args !! "category") (args !! "status") = inr rows
    ∧ (∀ j issue,
         (j, issue) ∈ rows ↔
           issues db !! j = Some issue
           ∧ (∃ km, geodesic_km E user_lat user_lon
                      (Issue.latitude issue) (Issue.longitude issue) = Some km
                    ∧ (km <=? radius)%float = true)
           ∧ passes_filter (args !! "category") (Issue.category issue)
           ∧ passes_filter (args !! "status") (Issue.status issue))
    ∧ (∀ j issue km,
         issues db !! j = Some issue →
         passes_filter (args !! "category") (Issue.category issue) →
         passes_filter (args !! "status") (Issue.status issue) →
         geodesic_km E user_lat user_lon
           (Issue.latitude issue) (Issue.longitude issue) = Some km →
         (km =? radius)%float = true → (j, issue) ∈ rows)
    ∧ (∀ j issue,
         issues db !! j = Some issue →
         passes_filter (args !! "category") (Issue.category issue) →
         passes_filter (args !! "status") (Issue.status issue) →
         Issue.latitude issue = user_lat →
         Issue.longitude issue = user_lon →
         ((0 <=? radius)%float = true → (j, issue) ∈ rows)
         ∧ (radius = 0%float → (j, issue) ∈ rows))
    ∧ ((∀ j issue, issues db !! j = Some issue → owner_known db issue) →
       ∃ vs, get_issues E db identity args = Reply 200 (BIssues vs)
             ∧ v_id <$> vs = rows.*1).
Proof.
  intros Hlat Hlon Hrad Hdef.
  destruct (within_radius_defined E user_lat user_lon radius
              (filtered_issues db (args !! "category") (args !! "status")))
    as (rows & Hrows & Hmem).
  { intros [j issue] Hr. apply elem_of_filtered_issues in Hr as (Hi & Hc & Hs).
    by apply (Hdef j). }
  assert (∀ j issue,
            (j, issue) ∈ rows ↔
              issues db !! j = Some issue
              ∧ (∃ km, geodesic_km E user_lat user_lon
                         (Issue.latitude issue) (Issue.longitude issue) = Some km
                       ∧ (km <=? radius)%float = true)
              ∧ passes_filter (args !! "category") (Issue.category issue)
              ∧ passes_filter (args !! "status") (Issue.status issue)) as Hiff.
  { intros j issue. rewrite Hmem, elem_of_filtered_issues. simpl. tauto. }
  assert (∀ j issue,
            issues db !! j = Some issue →
            passes_filter (args !! "category") (Issue.category issue) →
            passes_filter (args !! "status") (Issue.status issue) →
            Issue.latitude issue = user_lat →
            Issue.longitude issue = user_lon →
            (0 <=? radius)%float = true → (j, issue) ∈ rows) as Hcentre.
  { intros j issue Hi Hc Hs Hla Hlo Hr. apply Hiff. repeat split; try done.
    destruct (Hdef j issue Hi Hc Hs) as [km Hkm]. exists km. split; [done|].
    rewrite Hla, Hlo in Hkm. by rewrite (geodesic_here E _ _ _ Hkm). }
  exists rows. split; [exact Hrows|]. split; [exact Hiff|]. split; [|split].
  - intros j issue km Hi Hc Hs Hkm Heq. apply Hiff. repeat split; try done.
    exists km. split; [done|]. by apply float_eqb_leb.
  - intros j issue Hi Hc Hs Hla Hlo. split.
    + by apply Hcentre.
    + intros ->. by apply Hcentre.
  - intros Hknown.
    destruct (format_all_known db identity rows) as (vs & Hvs & Hids).
    { intros [j issue] Hr. apply Hiff in Hr as (Hi & _). by apply (Hknown j). }
    exists vs. split; [|done].
    unfold get_issues. rewrite Hlat, Hlon, Hrad.
    unfold nearby_issues in Hrows. unfold nearby_issues.
    by rewrite Hrows, Hvs.
Qed.

Lemma sample_db_issues : issues sample_db = {[1 := sample_issue]}.
Proof. vm_compute. reflexivity. Qed.

Lemma listing_selects_witness :
  ∃ rows,
    nearby_issues sample_env sample_db 12 77 0 None (Some "Reported") = inr rows
    ∧ (1, sample_issue) ∈ rows
    ∧ ∃ vs, get_issues sample_env sample_db None
              (<["lat" := "12"]> (<["lon" := "77"]> (<["radius" := "0"]>
               {["status" := "Reported"]}))) = Reply 200 (BIssues vs)
            ∧ v_id <$> vs = rows.*1.
Proof.
  pose (args := <["lat" := "12"]> (<["lon" := "77"]> (<["radius" := "0"]>
                  ({["status" := "Reported"]} : gmap string string)))).
  destruct (listing_selects_within_radius sample_env sample_db None args
              12 77 0) as (rows & Hrows & _ & _ & Hcentre & Hresp).
  - vm_compute. reflexivity.
  - vm_compute. reflexivity.
  - vm_compute. reflexivity.
  - intros j issue. rewrite sample_db_issues.
    intros [_ <-]%lookup_singleton_Some _ _. vm_compute. eauto.
  - exists rows. split; [exact Hrows|]. split.
    + apply (Hcentre 1 sample_issue).
      * apply sample_db_issue.
      * exact I.
      * vm_compute. intros _. reflexivity.
      * reflexivity.
      * reflexivity.
      * reflexivity.
    + apply Hresp. intros j issue. rewrite sample_db_issues.
      intros [_ <-]%lookup_singleton_Some. right. vm_compute. eauto.
Defined.

(** Against C6 as written.  With an empty [category] parameter in the
    request, the listing contains an issue whose category is not the
    parameter.  And with a second report stored off the globe, on which the
    distance raises, the request fails, so the issue at the very centre of
    the query is in no result. *)
Lemma listing_differs_from_claim :
  (let args : gmap string string :=
     <["lat" := "12"]> (<["lon" := "77"]> {["category" := ""]}) in
   args !! "category" = Some ""
   ∧ Issue.category sample_issue ≠ ""
   ∧ nearby_issues sample_env sample_db 12 77 5 (args !! "category")
       (args !! "status") = inr [(1, sample_issue)]
   ∧ ∃ v, get_issues sample_env sample_db None args = Reply 200 (BIssues [v])
          ∧ v_id v = 1 ∧ v_category v = "pothole")
  ∧ (issues two_reports_db !! 1 = Some sample_issue
     ∧ geodesic_km sample_env 12 77 (Issue.latitude sample_issue)
         (Issue.longitude sample_issue) = Some 0%float
     ∧ (0 <=? 5)%float = true
     ∧ get_issues sample_env two_reports_db None
         (<["lat" := "12"]> {["lon" := "77"]}) = Unhandled ValueError).
Proof.
  vm_compute. split.
  - split; [reflexivity|]. split; [discriminate|].
    split; [reflexivity|]. eexists. split; [reflexivity|]. split; reflexivity.
  - repeat split.
Qed.

(** C10: the listing answers 400 "Invalid coordinates" iff [lat] or [lon]
    is missing or is no number.  The radius is converted outside that
    handler: with [lat] and [lon] that parse and a [radius] that is no
    number, the [ValueError] of the conversion escapes the route. *)
Theorem listing_radius_unchecked
    (E : Env) (db : Db) (identity : option Z) (args : gmap string string) :
  (get_issues E db identity args = Reply 400 (BError "Invalid coordinates")
   ↔ bad_float_arg E (args !! "lat") ∨ bad_float_arg E (args !! "lon"))
  ∧ (∀ user_lat user_lon s,
       float_arg E (args !! "lat") = inr user_lat →
       float_arg E (args !! "lon") = inr user_lon →
       args !! "radius" = Some s →
       py_float E s = None →
       get_issues E db identity args = Unhandled ValueError).
Proof.
  split; [apply get_issues_400_iff|].
  intros user_lat user_lon s Hlat Hlon Hr Hs.
  unfold get_issues, radius_arg, float_arg in *.
  destruct (args !! "lat") as [slat|]; [|done].
  destruct (py_float E slat); [|done].
  destruct (args !! "lon") as [slon|]; [|done].
  destruct (py_float E slon); [|done].
  by rewrite Hr, Hs.
Qed.

Lemma listing_radius_unchecked_witness :
  get_issues sample_env sample_db None
    (<["lat" := "12"]> (<["lon" := "77"]> {["radius" := "wide"]}))
  = Unhandled ValueError.
Proof.
  apply (proj2 (listing_radius_unchecked sample_env sample_db None
                  (<["lat" := "12"]> (<["lon" := "77"]> {["radius" := "wide"]})))
           12%float 77%float "wide").
  - vm_compute. reflexivity.
  - vm_compute. reflexivity.
  - vm_compute. reflexivity.
  - vm_compute. reflexivity.
Defined.

(** ** Create *)

Lemma SFeqb_refl (f : spec_float) : f ≠ S754_nan → SFeqb f f = true.
Proof.
  destruct f as [s|s| |s m e]; intros Hn; try congruence.
  - reflexivity.
  - by destruct s.
  - unfold SFeqb, SFcompare.
    rewrite Z.compare_refl, Pos.compare_cont_refl. by destruct s.
Qed.

(** A float beyond the range of a latitude or of a longitude is a number
    other than zero: the database stores it as it is. *)
Lemma beyond_range_stored (x : float) :
  ((90 <? x) || (x <? -90) || (180 <? x) || (x <? -180))%float = true →
  PrimFloat.is_nan x = false ∧ as_stored x = x.
Proof.
  unfold PrimFloat.is_nan, as_stored, PrimFloat.is_zero.
  rewrite !ltb_spec, !FloatAxioms.eqb_spec.
  let c := eval vm_compute in (Prim2SF 90%float) in
    change (Prim2SF 90%float) with c.
  let c := eval vm_compute in (Prim2SF (-90)%float) in
    change (Prim2SF (-90)%float) with c.
  let c := eval vm_compute in (Prim2SF 180%float) in
    change (Prim2SF 180%float) with c.
  let c := eval vm_compute in (Prim2SF (-180)%float) in
    change (Prim2SF (-180)%float) with c.
  let c := eval vm_compute in (Prim2SF PrimFloat.zero) in
    change (Prim2SF PrimFloat.zero) with c.
  destruct (Prim2SF x) as [s|s| |s m e] eqn:Hx.
  - destruct s; discriminate.
  - intros _. split; by destruct s.
  - discriminate.
  - intros _. rewrite SFeqb_refl by discriminate. split; [done|].
    by destruct s.
Qed.

Lemma sqlite_real_stored (x : float) :
  PrimFloat.is_nan x = false → sqlite_real x = inr (as_stored x).
Proof. unfold sqlite_real. by intros ->. Qed.

Lemma sqlite_real_nan (x : float) :
  PrimFloat.is_nan x = true → sqlite_real x = inl IntegrityError.
Proof. unfold sqlite_real. by intros ->. Qed.

Lemma new_issue_bad_form (E : Env) (uid : Z) (form : gmap string string) :
  bad_form E form → ∃ e, new_issue E uid form = inl e.
Proof.
  unfold new_issue, form_field, float_arg, bad_coordinate.
  destruct (form !! "title") eqn:Ht; simpl; [|eauto].
  destruct (form !! "description") eqn:Hd; simpl; [|eauto].
  destruct (form !! "category") eqn:Hc; simpl; [|eauto].
  destruct (form !! "latitude") as [la|] eqn:Hla; simpl; [|eauto].
  destruct (py_float E la) as [x|] eqn:Hx; simpl; [|eauto].
  destruct (form !! "longitude") as [lo|] eqn:Hlo; simpl; [|eauto].
  destruct (py_float E lo) as [y|] eqn:Hy; simpl; [|eauto].
  intros [(k & Hk & Hnone)|[(s' & Hs' & Hbad)|(s' & Hs' & Hbad)]].
  - unfold required_fields in Hk. rewrite !elem_of_cons, elem_of_nil in Hk.
    destruct Hk as [->|[->|[->|[->|[->|[]]]]]]; congruence.
  - assert (s' = la) as -> by congruence. unfold bad_coordinate in Hbad.
    destruct Hbad as [?|(x' & Hx' & Hnan)]; [congruence|].
    assert (x' = x) as -> by congruence.
    rewrite (sqlite_real_nan x Hnan). simpl. eauto.
  - assert (s' = lo) as -> by congruence. unfold bad_coordinate in Hbad.
    destruct Hbad as [?|(y' & Hy' & Hnan)]; [congruence|].
    assert (y' = y) as -> by congruence.
    rewrite (sqlite_real_nan y Hnan).
    destruct (sqlite_real x); simpl; eauto.
Qed.

Lemma new_issue_good_form (E : Env) (uid : Z) (form : gmap string string)
    (t d c la lo : string) (x y : float) :
  form !! "title" = Some t →
  form !! "description" = Some d →
  form !! "category" = Some c →
  form !! "latitude" = Some la → py_float E la = Some x →
  PrimFloat.is_nan x = false →
  form !! "longitude" = Some lo → py_float E lo = Some y →
  PrimFloat.is_nan y = false →
  new_issue E uid form =
    inr (Issue.mk t d c (as_stored x) (as_stored y) "Reported" uid
           (String.eqb (lower (default "false" (form !! "is_anonymous"))) "true")
           0 0).
Proof.
  intros Ht Hd Hc Hla Hx Hnx Hlo Hy Hny.
  unfold new_issue, form_field, float_arg.
  rewrite Ht, Hd, Hc, Hla. simpl. rewrite Hx, Hlo. simpl. rewrite Hy. simpl.
  by rewrite (sqlite_real_stored x Hnx), (sqlite_real_stored y Hny).
Qed.

Lemma report_issue_first_commit (E : Env) (db : Db) (uid : Z)
    (form : gmap string string) (files : list string) (issue : Issue.t) :
  new_issue E uid form = inr issue →
  issues (report_issue E db (Some uid) form files).1 !! next_issue_id db
    = Some issue.
Proof.
  intros Hnew. unfold report_issue. rewrite Hnew. cbv zeta.
  destruct (save_uploads E 0 files) as [e|names]; cbn [fst].
  - simpl. apply lookup_insert_eq.
  - destruct (format_issue _ _ _ _); cbn [fst]; simpl; apply lookup_insert_eq.
Qed.

(** C5, as the code has it: the create route answers 400 when one of the
    form fields title, description, category, latitude, longitude is
    missing, or when latitude or longitude is no number or is NaN (which
    the database refuses), and then stores nothing.  It checks nothing
    else: with the five fields present and two coordinates that are
    numbers, the issue is stored with the values as sent (a negative zero
    as zero), whatever the coordinates and however empty the title and
    category; with no upload and a reporter who can be named the answer is
    201.  A coordinate beyond ±90 or ±180 is such a number and is stored
    unchanged.  The listing answers 400 "Invalid coordinates" iff [lat] or
    [lon] is missing or is no number, not on account of their range. *)
Theorem create_checks_presence_and_syntax
    (E : Env) (db : Db) (uid : Z) (form : gmap string string)
    (files : list string) (identity : option Z) (args : gmap string string) :
  (bad_form E form →
     ∃ e, report_issue E db (Some uid) form files = (db, Reply 400 (BRaised e)))
  ∧ (∀ t d c la lo x y,
       form !! "title" = Some t →
       form !! "description" = Some d →
       form !! "category" = Some c →
       form !! "latitude" = Some la → py_float E la = Some x →
       PrimFloat.is_nan x = false →
       form !! "longitude" = Some lo → py_float E lo = Some y →
       PrimFloat.is_nan y = false →
       let issue :=
         Issue.mk t d c (as_stored x) (as_stored y) "Reported" uid
           (String.eqb (lower (default "false" (form !! "is_anonymous"))) "true")
           0 0 in
       issues (report_issue E db (Some uid) form files).1 !! next_issue_id db
         = Some issue
       ∧ (files = [] → owner_known db issue →
            ∃ v, (report_issue E db (Some uid) form files).2
                   = Reply 201 (BIssue v)
                 ∧ v_title v = t ∧ v_category v = c
                 ∧ v_latitude v = as_stored x ∧ v_longitude v = as_stored y))
  ∧ (∀ x, ((90 <? x) || (x <? -90) || (180 <? x) || (x <? -180))%float = true →
          PrimFloat.is_nan x = false ∧ as_stored x = x)
  ∧ (get_issues E db identity args = Reply 400 (BError "Invalid coordinates")
     ↔ bad_float_arg E (args !! "lat") ∨ bad_float_arg E (args !! "lon")).
Proof.
  split; [|split; [|split; [apply beyond_range_stored|apply get_issues_400_iff]]].
  - intros Hbad. destruct (new_issue_bad_form E uid form Hbad) as [e He].
    exists e. unfold report_issue. by rewrite He.
  - intros t d c la lo x y Ht Hd Hc Hla Hx Hnx Hlo Hy Hny issue.
    pose proof (new_issue_good_form E uid form t d c la lo x y
                  Ht Hd Hc Hla Hx Hnx Hlo Hy Hny) as Hnew.
    fold issue in Hnew. split.
    + by apply report_issue_first_commit.
    + intros -> Hknown. unfold report_issue. rewrite Hnew. cbv zeta.
      cbn [save_uploads].
      set (db2 := add_log _ _ _ _).
      destruct (format_issue_known db2 (next_issue_id db) issue (Some uid))
        as (v & -> & _ & Hvt & _ & Hvc & _ & _ & _ & Hvla & Hvlo).
      { exact Hknown. }
      exists v. cbn [snd]. by rewrite Hvt, Hvc, Hvla, Hvlo.
Qed.

Lemma create_checks_witness :
  (∃ e, report_issue sample_env (fresh_db sample_users) (Some 1)
          (delete "title" sample_form) []
        = (fresh_db sample_users, Reply 400 (BRaised e)))
  ∧ issues (report_issue sample_env (fresh_db sample_users) (Some 1)
              sample_form []).1 !! next_issue_id (fresh_db sample_users)
    = Some sample_issue
  ∧ (PrimFloat.is_nan 91 = false ∧ as_stored 91 = 91%float).
Proof.
  split; [|split].
  - apply (proj1 (create_checks_presence_and_syntax sample_env
                    (fresh_db sample_users) 1 (delete "title" sample_form)
                    [] None ∅)).
    left. exists "title". split.
    + unfold required_fields. rewrite elem_of_cons. by left.
    + apply lookup_delete_eq.
  - apply (proj1 (proj2 (create_checks_presence_and_syntax sample_env
                           (fresh_db sample_users) 1 sample_form [] None ∅))
             "Pothole" "Deep one" "pothole" "12" "77" 12%float 77%float);
      vm_compute; reflexivity.
  - apply (proj1 (proj2 (proj2 (create_checks_presence_and_syntax sample_env
                                  (fresh_db sample_users) 1 sample_form []
                                  None ∅))) 91%float).
    vm_compute. reflexivity.
Defined.

(** Against C5 as written: a report with latitude 91, longitude 181 and
    empty title and category is stored and answered with 201, and a
    listing around (91, 181) is not answered with 400. *)
Lemma create_accepts_off_globe :
  py_float sample_env "91" = Some 91%float
  ∧ (90 <? 91)%float = true
  ∧ py_float sample_env "181" = Some 181%float
  ∧ (180 <? 181)%float = true
  ∧ off_globe_form !! "title" = Some ""
  ∧ off_globe_form !! "category" = Some ""
  ∧ (∃ v, (report_issue sample_env (fresh_db sample_users) (Some 1)
             off_globe_form []).2 = Reply 201 (BIssue v)
          ∧ v_latitude v = 91%float ∧ v_longitude v = 181%float
          ∧ v_title v = "" ∧ v_category v = "")
  ∧ issues (report_issue sample_env (fresh_db sample_users) (Some 1)
              off_globe_form []).1 !! 1
    = Some (Issue.mk "" "Deep one" "" 91 181 "Reported" 1 false 0 0)
  ∧ get_issues sample_env (fresh_db sample_users) None
      (<["lat" := "91"]> {["lon" := "181"]}) = Reply 200 (BIssues []).
Proof.
  vm_compute. repeat split. eexists. repeat split.
Qed.

(** C2, at the failing input: when the issue is built and the loop over
    the uploads raises, the first commit has already stored the issue.  The
    handler rolls back and answers 400; the issue stays in the table, and
    neither its images nor its initial Reported log entry are written. *)
Theorem report_issue_partial_on_upload_failure
    (E : Env) (db : Db) (uid : Z) (form : gmap string string)
    (files : list string) (issue : Issue.t) (e : Exn) :
  new_issue E uid form = inr issue →
  save_uploads E 0 files = inl e →
  let r := report_issue E db (Some uid) form files in
  r.2 = Reply 400 (BRaised e)
  ∧ issues db !! next_issue_id db = None
  ∧ issues r.1 !! next_issue_id db = Some issue
  ∧ status_logs r.1 = status_logs db
  ∧ issue_images r.1 = issue_images db
  ∧ logs_of r.1 (next_issue_id db) = logs_of db (next_issue_id db).
Proof.
  intros Hnew Hup r. subst r. unfold report_issue.
  rewrite Hnew. cbv zeta. rewrite Hup. cbn [fst snd].
  split; [done|]. split; [apply next_issue_id_fresh|].
  split; [simpl; apply lookup_insert_eq|]. done.
Qed.

Lemma report_issue_partial_witness :
  let r := report_issue sample_env (fresh_db sample_users) (Some 1)
             sample_form [".png"] in
  r.2 = Reply 400 (BRaised IndexError)
  ∧ issues (fresh_db sample_users) !! 1 = None
  ∧ issues r.1 !! 1 = Some sample_issue
  ∧ status_logs r.1 = []
  ∧ issue_images r.1 = []
  ∧ logs_of r.1 1 = [].
Proof.
  apply (report_issue_partial_on_upload_failure sample_env
           (fresh_db sample_users) 1 sample_form [".png"] sample_issue
           IndexError).
  - vm_compute. reflexivity.
  - vm_compute. reflexivity.
Defined.

(** ** The flag threshold as an invariant of the lifecycle *)

Lemma flag_inv_ext (db db' : Db) :
  issues db' = issues db → status_logs db' = status_logs db →
  flag_inv db → flag_inv db'.
Proof.
  intros Hi Hl Hinv i issue. unfold admin_logged, logs_of.
  rewrite Hi, Hl. apply Hinv.
Qed.

Lemma flag_inv_put (db : Db) (i : Z) (issue : Issue.t) :
  flag_inv db →
  (5 ≤ Issue.flags issue →
     Issue.status issue = "Flagged" ∨ admin_logged db i issue) →
  flag_inv (put_issue i issue db).
Proof.
  intros Hinv Hnew j issue' Hj Hge. simpl in Hj.
  apply lookup_insert_Some in Hj as [[<- <-]|[Hne Hj]].
  - by apply Hnew.
  - by apply Hinv.
Qed.

Lemma flag_inv_put_log (db : Db) (i : Z) (issue : Issue.t) (s : string)
    (a : option Z) :
  flag_inv db →
  (5 ≤ Issue.flags issue →
     Issue.status issue = "Flagged"
     ∨ (is_Some a ∧ s = Issue.status issue)) →
  flag_inv (add_log i s a (put_issue i issue db)).
Proof.
  intros Hinv Hnew j issue' Hj Hge. simpl in Hj.
  apply lookup_insert_Some in Hj as [[<- <-]|[Hne Hj]].
  - destruct (Hnew Hge) as [?|[[admin ->] ->]]; [by left|]. right.
    unfold admin_logged. rewrite logs_of_add_log_eq, last_snoc.
    eexists _, admin. by repeat split.
  - destruct (Hinv j issue' Hj Hge) as [?|Hlog]; [by left|]. right.
    unfold admin_logged. by rewrite logs_of_add_log_ne, logs_of_put_issue.
Qed.

Lemma new_issue_flags (E : Env) (uid : Z) (form : gmap string string)
    (issue : Issue.t) :
  new_issue E uid form = inr issue → Issue.flags issue = 0.
Proof.
  unfold new_issue, form_field, float_arg.
  destruct (form !! "title"); simpl; [|done].
  destruct (form !! "description"); simpl; [|done].
  destruct (form !! "category"); simpl; [|done].
  destruct (form !! "latitude") as [la|]; simpl; [|done].
  destruct (py_float E la) as [x|]; simpl; [|done].
  destruct (form !! "longitude") as [lo|]; simpl; [|done].
  destruct (py_float E lo) as [y|]; simpl; [|done].
  destruct (sqlite_real x); simpl; [done|].
  destruct (sqlite_real y); simpl; [done|].
  by intros [= <-].
Qed.

Lemma flag_inv_report_issue (E : Env) (db : Db) (identity : option Z)
    (form : gmap string string) (files : list string) :
  flag_inv db → flag_inv (report_issue E db identity form files).1.
Proof.
  intros Hinv. unfold report_issue.
  destruct identity as [uid|]; [|done].
  destruct (new_issue E uid form) as [e|issue] eqn:Hnew; [done|].
  apply new_issue_flags in Hnew. cbv zeta.
  destruct (save_uploads E 0 files) as [e|names]; cbn [fst].
  - apply flag_inv_put; [done|lia].
  - assert (flag_inv (add_log (next_issue_id db) "Reported" None
                        (add_images (next_issue_id db) names
                           (put_issue (next_issue_id db) issue db)))) as H.
    { apply (flag_inv_ext
               (add_log (next_issue_id db) "Reported" None
                  (put_issue (next_issue_id db) issue db))); [done|done|].
      apply flag_inv_put_log; [done|lia]. }
    by destruct (format_issue _ _ _ _).
Qed.

Lemma flag_inv_update_issue (db : Db) (identity : option Z) (i : Z)
    (data : gmap string string) :
  flag_inv db → flag_inv (update_issue db identity i data).1.
Proof.
  intros Hinv. unfold update_issue.
  destruct identity as [uid|]; [|done].
  unfold get_or_404. destruct (issues db !! i) as [issue|] eqn:Hi; [|done].
  cbv zeta.
  assert (flag_inv (put_issue i (apply_fields data issue) db)) as Hput.
  { destruct (apply_fields_frame data issue)
      as (_ & _ & _ & Hs & _ & Hf & _).
    apply flag_inv_put; [done|]. rewrite Hf. intros Hge.
    destruct (Hinv i issue Hi Hge) as [?|Hlog].
    - left. by rewrite Hs.
    - right. unfold admin_logged in *. by rewrite Hs. }
  assert (flag_inv
            (match format_issue (put_issue i (apply_fields data issue) db) i
                     (apply_fields data issue) (Some uid) with
             | inl e => (put_issue i (apply_fields data issue) db, Unhandled e)
             | inr v => (put_issue i (apply_fields data issue) db,
                         Reply 200 (BIssue v))
             end).1) as Hok by (by destruct (format_issue _ _ _ _)).
  case_bool_decide; [|done].
  destruct (users db !! uid) as [user|]; [|done].
  by destruct (User.is_admin user).
Qed.

Lemma flag_inv_update_issue_status (db : Db) (identity : option Z) (i : Z)
    (data : gmap string string) :
  flag_inv db → flag_inv (update_issue_status db identity i data).1.
Proof.
  intros Hinv. unfold update_issue_status.
  destruct identity as [uid|]; [|done].
  destruct (users db !! uid) as [user|]; [|done].
  destruct (User.is_admin user); [|done]. cbn [negb].
  unfold get_or_404. destruct (issues db !! i) as [issue|]; [|done].
  destruct (data !! "status") as [s|]; [|done].
  destruct (negb (truthy s) || negb (existsb (String.eqb s) settable_statuses))%bool;
    [done|].
  assert (flag_inv (add_log i s (Some uid)
                      (put_issue i (Issue.set_status s issue) db))) as H.
  { apply flag_inv_put_log; [done|]. intros _. right. split; [by eexists|done]. }
  by destruct (format_issue _ _ _ _).
Qed.

Lemma flag_inv_upvote_issue (db : Db) (identity : option Z) (i : Z) :
  flag_inv db → flag_inv (upvote_issue db identity i).1.
Proof.
  intros Hinv. unfold upvote_issue.
  destruct identity as [uid|]; [|done].
  unfold get_or_404. destruct (issues db !! i) as [issue|] eqn:Hi; [|done].
  cbn [fst]. apply flag_inv_put; [done|]. apply (Hinv i issue Hi).
Qed.

Lemma flag_inv_flag_issue (db : Db) (identity : option Z) (i : Z) :
  flag_inv db → flag_inv (flag_issue db identity i).1.
Proof.
  intros Hinv. unfold flag_issue.
  destruct identity as [uid|]; [|done].
  unfold get_or_404. destruct (issues db !! i) as [issue|] eqn:Hi; [|done].
  cbv zeta. cbn [Issue.flags Issue.set_flags].
  destruct (5 <=? Issue.flags issue + 1) eqn:H5; cbn [fst].
  - apply flag_inv_put_log; [done|]. intros _. by left.
  - apply Z.leb_gt in H5. apply flag_inv_put; [done|]. simpl. lia.
Qed.

Lemma flag_inv_delete_issue (db : Db) (identity : option Z) (i : Z) :
  flag_inv db → flag_inv (delete_issue db identity i).1.
Proof.
  intros Hinv. unfold delete_issue.
  destruct identity as [uid|]; [|done].
  destruct (users db !! uid) as [user|]; [|done].
  destruct (User.is_admin user); [|done]. cbn [negb].
  unfold get_or_404. destruct (issues db !! i) as [issue|]; [|done].
  cbn [fst]. intros j issue' Hj Hge. simpl in Hj.
  apply lookup_delete_Some in Hj as [Hne Hj].
  destruct (Hinv j issue' Hj Hge) as [?|Hlog]; [by left|]. right.
  unfold admin_logged, logs_of in *. cbn [status_logs].
  by rewrite orphan_log_other.
Qed.

Lemma flag_inv_exec (E : Env) (db : Db) (op : Op) :
  flag_inv db → flag_inv (exec E db op).
Proof.
  destruct op; simpl.
  - apply flag_inv_report_issue.
  - apply flag_inv_update_issue.
  - apply flag_inv_update_issue_status.
  - apply flag_inv_upvote_issue.
  - apply flag_inv_flag_issue.
  - apply flag_inv_delete_issue.
Qed.

Lemma flag_inv_run (E : Env) (ops : list Op) :
  ∀ db, flag_inv db → flag_inv (run E db ops).
Proof.
  induction ops as [|op ops IH]; intros db Hinv; [done|].
  simpl. apply IH. by apply flag_inv_exec.
Qed.

(** C4, as the code has it: in every state reached from a database
    without issues through create, edit, setStatus, upvote, flag and
    delete, an issue with five flags or more has status Flagged, unless the
    latest entry of its log was written by an admin status update; it then
    has the status of that entry. *)
Theorem flag_threshold_invariant
    (E : Env) (us : gmap Z User.t) (ops : list Op) (i : Z) (issue : Issue.t) :
  let db := run E (fresh_db us) ops in
  issues db !! i = Some issue →
  5 ≤ Issue.flags issue →
  Issue.status issue = "Flagged"
  ∨ ∃ log admin,
      last (logs_of db i) = Some log
      ∧ StatusLog.admin_id log = Some admin
      ∧ StatusLog.status log = Issue.status issue.
Proof.
  intros db. apply (flag_inv_run E ops (fresh_db us)).
  intros j issue' Hj. unfold fresh_db in Hj. cbn [issues] in Hj.
  by rewrite lookup_empty in Hj.
Qed.

Lemma flag_threshold_invariant_witness :
  Issue.status sample_issue_flagged = "Flagged"
  ∨ ∃ log admin,
      last (logs_of (run sample_env (fresh_db sample_users)
                       (take 6 flagged_then_resolved)) 1) = Some log
      ∧ StatusLog.admin_id log = Some admin
      ∧ StatusLog.status log = Issue.status sample_issue_flagged.
Proof.
  apply (flag_threshold_invariant sample_env sample_users
           (take 6 flagged_then_resolved) 1 sample_issue_flagged).
  - vm_compute. reflexivity.
  - vm_compute. discriminate.
Defined.

(** Against C4 as written: after a report, five flags and a status update
    by the admin, the issue has five flags and status Resolved. *)
Lemma flagged_issue_resolved_by_admin :
  let db := run sample_env (fresh_db sample_users) flagged_then_resolved in
  issues db !! 1 =
    Some (Issue.mk "Pothole" "Deep one" "pothole" 12 77 "Resolved" 1 false 0 5)
  ∧ (5 <=? 5) = true
  ∧ "Resolved" ≠ "Flagged".
Proof. vm_compute. repeat split. discriminate. Qed.

(** * Further properties of the routes *)

(** ** File names *)

Lemma rsplit_dot_None (s : string) :
  rsplit_dot s = None ↔ "."%char ∉ chars s.
Proof.
  unfold chars. induction s as [|c r IH]; simpl.
  - split; [intros _; apply not_elem_of_nil|done].
  - rewrite not_elem_of_cons, <- IH.
    destruct (rsplit_dot r) as [ext|].
    + split; [done|]. by intros [_ ?].
    + destruct (Ascii.eqb c ".") eqn:Hc.
      * apply Ascii.eqb_eq in Hc as ->. split; [done|]. by intros [? _].
      * apply Ascii.eqb_neq in Hc. split; [|done]. intros _. split; [|done].
        congruence.
Qed.

Lemma rsplit_dot_join (base ext : string) :
  "."%char ∉ chars ext →
  rsplit_dot (base +:+ "." +:+ ext) = Some ext.
Proof.
  intros Hext. apply rsplit_dot_None in Hext.
  induction base as [|c b IH].
  - change ("" +:+ "." +:+ ext) with (String "." ext). simpl.
    by rewrite Hext.
  - change (String c b +:+ "." +:+ ext) with (String c (b +:+ "." +:+ ext)).
    simpl. by rewrite IH.
Qed.

Lemma rsplit_dot_Some (s ext : string) :
  rsplit_dot s = Some ext →
  ∃ base, s = base +:+ "." +:+ ext ∧ "."%char ∉ chars ext.
Proof.
  revert ext. induction s as [|c r IH]; intros ext; simpl; [done|].
  destruct (rsplit_dot r) as [ext'|] eqn:Hr.
  - intros [= <-]. destruct (IH ext' eq_refl) as (base & -> & Hno).
    by exists (String c base).
  - destruct (Ascii.eqb c ".") eqn:Hc; [|done].
    apply Ascii.eqb_eq in Hc as ->. intros [= <-].
    exists "". split; [done|]. by apply rsplit_dot_None.
Qed.

(** X1: [allowed_file] accepts exactly the names of the form
    base.ext where ext has no dot and is, up to the case of its letters,
    one of png, jpg, jpeg, gif.  A name without a dot is refused. *)
Theorem allowed_file_spec (filename : string) :
  (allowed_file filename = true ↔
     ∃ base ext,
       filename = base +:+ "." +:+ ext
       ∧ ("."%char ∉ chars ext)
       ∧ lower ext ∈ Config.ALLOWED_EXTENSIONS)
  ∧ ("."%char ∉ chars filename → allowed_file filename = false).
Proof.
  unfold allowed_file. split.
  - split.
    + destruct (rsplit_dot filename) as [ext|] eqn:Hr; [|done].
      intros Hin. apply existsb_eqb_elem_of in Hin.
      destruct (rsplit_dot_Some _ _ Hr) as (base & -> & Hno). eauto.
    + intros (base & ext & -> & Hno & Hin).
      rewrite (rsplit_dot_join base ext Hno).
      by apply existsb_eqb_elem_of.
  - intros Hno. apply rsplit_dot_None in Hno. by rewrite Hno.
Qed.

Lemma allowed_file_spec_witness :
  allowed_file "street.view.JPeG" = true ∧ allowed_file "README" = false.
Proof.
  split.
  - apply (proj1 (allowed_file_spec "street.view.JPeG")).
    exists "street.view", "JPeG". split; [reflexivity|]. split.
    + unfold chars. simpl. rewrite !not_elem_of_cons.
      repeat split; try discriminate. apply not_elem_of_nil.
    + change (lower "JPeG") with "jpeg". unfold Config.ALLOWED_EXTENSIONS.
      rewrite !elem_of_cons. auto.
  - apply (proj2 (allowed_file_spec "README")).
    unfold chars. simpl. rewrite !not_elem_of_cons.
    repeat split; try discriminate. apply not_elem_of_nil.
Defined.

(** ** Uploads *)

Lemma save_uploads_filter (E : Env) (files : list string) :
  ∀ k, save_uploads E k files =
       save_uploads E k (filter (λ f, accepted_upload f = true) files).
Proof.
  induction files as [|file rest IH]; intros k; [done|].
  destruct (accepted_upload file) eqn:Hacc.
  - rewrite filter_cons_True by done. simpl.
    unfold accepted_upload in Hacc. rewrite Hacc.
    destruct (rsplit_dot (secure_filename E file)); [|done].
    destruct (file_save E _); [|done]. by rewrite IH.
  - rewrite filter_cons_False by (by rewrite Hacc). simpl.
    unfold accepted_upload in Hacc. rewrite Hacc. apply IH.
Qed.

Lemma save_uploads_length (E : Env) (files : list string) :
  ∀ k names,
    save_uploads E k files = inr names →
    length names = length (filter (λ f, accepted_upload f = true) files).
Proof.
  induction files as [|file rest IH]; intros k names; simpl.
  - by intros [= <-].
  - destruct (accepted_upload file) eqn:Hacc.
    + rewrite filter_cons_True by done.
      unfold accepted_upload in Hacc. rewrite Hacc.
      destruct (rsplit_dot (secure_filename E file)); [|done].
      destruct (file_save E _); [|done].
      destruct (save_uploads E (S k) rest) as [e|names'] eqn:Hrest; [done|].
      simpl. intros [= <-]. simpl. f_equal. by eapply IH.
    + rewrite filter_cons_False by (by rewrite Hacc).
      unfold accepted_upload in Hacc. rewrite Hacc. apply IH.
Qed.

(** X2: the create route ignores every upload whose name is empty or
    fails [allowed_file]: the request has the same outcome as the request
    without those files, and no error is reported for them.  When the loop
    ends without exception it has produced one file name per remaining
    upload. *)
Theorem report_issue_skips_rejected_uploads
    (E : Env) (db : Db) (identity : option Z) (form : gmap string string)
    (files : list string) :
  report_issue E db identity form files =
    report_issue E db identity form
      (filter (λ f, accepted_upload f = true) files)
  ∧ ∀ names,
      save_uploads E 0 files = inr names →
      length names = length (filter (λ f, accepted_upload f = true) files).
Proof.
  split.
  - unfold report_issue. by rewrite <- save_uploads_filter.
  - apply save_uploads_length.
Qed.

Lemma report_issue_skips_witness :
  length ["00000000-0000-4000-8000-000000000000.png"] =
  length (filter (λ f, accepted_upload f = true)
            ["notes.txt"; "street.PNG"; ""; "archive"]).
Proof.
  apply (proj2 (report_issue_skips_rejected_uploads sample_env
                  (fresh_db sample_users) (Some 1) sample_form
                  ["notes.txt"; "street.PNG"; ""; "archive"])).
  vm_compute. reflexivity.
Defined.

(** ** The serialised issue *)

(** X3: [format_issue] raises exactly when the issue is not anonymous and
    the row of its reporter is missing, and then with [AttributeError].
    Otherwise the reporter of an anonymous issue is withheld, the reporter
    of any other issue is given by id and user name, the images are the
    file names of the image rows of the issue, and [can_edit] holds iff
    the current user is the reporter and has an id other than 0. *)
Theorem format_issue_outcomes
    (db : Db) (i : Z) (issue : Issue.t) (cur : option Z) :
  (∀ e, format_issue db i issue cur = inl e ↔
          e = AttributeError
          ∧ Issue.is_anonymous issue = false
          ∧ users db !! Issue.user_id issue = None)
  ∧ (∀ v, format_issue db i issue cur = inr v →
       (Issue.is_anonymous issue = true → v_user v = None)
       ∧ (Issue.is_anonymous issue = false →
            ∃ u, users db !! Issue.user_id issue = Some u
                 ∧ v_user v = Some (Issue.user_id issue, User.username u))
       ∧ v_images v = IssueImage.filename <$> images_of db i
       ∧ (v_can_edit v = true ↔
            cur = Some (Issue.user_id issue) ∧ Issue.user_id issue ≠ 0)).
Proof.
  unfold format_issue, user_ref.
  destruct (Issue.is_anonymous issue) eqn:Hanon; simpl.
  - split.
    + intros e. split; [done|]. by intros (_ & ? & _).
    + intros v [= <-]. simpl. split; [done|]. split; [done|].
      split; [done|]. unfold can_edit. destruct cur as [c|].
      * destruct (Z.eqb_spec c 0) as [->|Hc0].
        { split; [done|]. intros [[= <-] ?]. done. }
        destruct (Z.eqb_spec c (Issue.user_id issue)) as [->|Hne].
        { split; [done|]. done. }
        split; [done|]. intros [[= ->] _]. done.
      * split; [done|]. by intros [? _].
  - destruct (users db !! Issue.user_id issue) as [u|] eqn:Hu; simpl.
    + split.
      * intros e. split; [done|]. by intros (_ & _ & ?).
      * intros v [= <-]. simpl. split; [done|]. split; [eauto|].
        split; [done|]. unfold can_edit. destruct cur as [c|].
        -- destruct (Z.eqb_spec c 0) as [->|Hc0].
           { split; [done|]. intros [[= <-] ?]. done. }
           destruct (Z.eqb_spec c (Issue.user_id issue)) as [->|Hne].
           { split; [done|]. done. }
           split; [done|]. intros [[= ->] _]. done.
        -- split; [done|]. by intros [? _].
    + split; [|done]. intros e. split.
      * by intros [= <-].
      * by intros (-> & _).
Qed.

Lemma format_issue_outcomes_witness :
  ∃ u, users sample_db !! Issue.user_id sample_issue = Some u
       ∧ v_user (mkView 1 "Pothole" "Deep one" "pothole" 12 77 "Reported"
                   (Some (1, "asha")) 0 0 [] false [("Reported", None)])
         = Some (Issue.user_id sample_issue, User.username u).
Proof.
  apply (proj2 (format_issue_outcomes sample_db 1 sample_issue None)
           (mkView 1 "Pothole" "Deep one" "pothole" 12 77 "Reported"
              (Some (1, "asha")) 0 0 [] false [("Reported", None)])).
  - vm_compute. reflexivity.
  - reflexivity.
Defined.

(** ** A report that succeeds *)

Lemma new_issue_defaults (E : Env) (uid : Z) (form : gmap string string)
    (issue : Issue.t) :
  new_issue E uid form = inr issue →
  Issue.status issue = "Reported"
  ∧ Issue.upvotes issue = 0
  ∧ Issue.flags issue = 0
  ∧ Issue.user_id issue = uid.
Proof.
  unfold new_issue, form_field, float_arg.
  destruct (form !! "title"); simpl; [|done].
  destruct (form !! "description"); simpl; [|done].
  destruct (form !! "category"); simpl; [|done].
  destruct (form !! "latitude") as [la|]; simpl; [|done].
  destruct (py_float E la) as [x|]; simpl; [|done].
  destruct (form !! "longitude") as [lo|]; simpl; [|done].
  destruct (py_float E lo) as [y|]; simpl; [|done].
  destruct (sqlite_real x); simpl; [done|].
  destruct (sqlite_real y); simpl; [done|].
  by intros [= <-].
Qed.

Lemma images_of_add_images (db : Db) (i : Z) (names : list string) :
  IssueImage.filename <$> images_of (add_images i names db) i =
  (IssueImage.filename <$> images_of db i) ++ names.
Proof.
  unfold images_of, add_images. cbn [issue_images].
  rewrite filter_app, fmap_app. f_equal.
  generalize (next_image_id db). intros n.
  revert n. induction names as [|name names IH]; intros n; [done|].
  rewrite imap_cons, filter_cons_True by done.
  rewrite fmap_cons. simpl. f_equal.
  rewrite <- (IH (n + 1)) at 2. do 2 f_equal.
  apply imap_ext. intros k x _. simpl. f_equal. lia.
Qed.

(** X4: when the row of the report is inserted (the five form fields are
    present and the coordinates are numbers other than NaN) and the uploads
    are saved, the create route stores the issue under a key that was free,
    with status Reported and no upvote or flag, and appends exactly one log
    entry, Reported and without admin.  If no older row names that key, the log
    of the issue is that single entry and its images are the saved files,
    in upload order. *)
Theorem report_issue_success
    (E : Env) (db : Db) (uid : Z) (form : gmap string string)
    (files : list string) (issue : Issue.t) (names : list string) :
  new_issue E uid form = inr issue →
  save_uploads E 0 files = inr names →
  let i := next_issue_id db in
  let db' := (report_issue E db (Some uid) form files).1 in
  issues db !! i = None
  ∧ issues db' !! i = Some issue
  ∧ Issue.status issue = "Reported"
  ∧ Issue.upvotes issue = 0
  ∧ Issue.flags issue = 0
  ∧ status_logs db' =
      status_logs db ++ [StatusLog.mk (next_log_id db) (Some i) "Reported" None]
  ∧ (logs_of db i = [] →
       logs_of db' i = [StatusLog.mk (next_log_id db) (Some i) "Reported" None])
  ∧ (images_of db i = [] → IssueImage.filename <$> images_of db' i = names).
Proof.
  intros Hnew Hup i db'. subst db'. unfold report_issue.
  rewrite Hnew, Hup. cbv zeta. fold i.
  set (db2 := add_log i "Reported" None
                (add_images i names (put_issue i issue db))).
  assert (∀ x : Exn + IssueView,
            (match x with
             | inl e => (db2, Reply 400 (BRaised e))
             | inr v => (db2, Reply 201 (BIssue v))
             end).1 = db2) as Hfst by (by intros [?|?]).
  rewrite Hfst.
  destruct (new_issue_defaults E uid form issue Hnew) as (Hs & Hu & Hf & _).
  split; [apply next_issue_id_fresh|].
  split; [subst db2; simpl; apply lookup_insert_eq|].
  do 3 (split; [done|]). split; [done|]. split.
  - intros Hnone. subst db2. rewrite logs_of_add_log_eq.
    change (logs_of (add_images i names (put_issue i issue db)) i)
      with (logs_of db i). by rewrite Hnone.
  - intros Hnone.
    change (images_of db2 i)
      with (images_of (add_images i names (put_issue i issue db)) i).
    rewrite images_of_add_images.
    change (images_of (put_issue i issue db) i) with (images_of db i).
    by rewrite Hnone.
Qed.

Lemma report_issue_success_witness :
  let db := fresh_db sample_users in
  let db' := (report_issue sample_env db (Some 1) sample_form
                ["street.PNG"; "notes.txt"]).1 in
  issues db !! next_issue_id db = None
  ∧ issues db' !! next_issue_id db = Some sample_issue
  ∧ Issue.status sample_issue = "Reported"
  ∧ Issue.upvotes sample_issue = 0
  ∧ Issue.flags sample_issue = 0
  ∧ status_logs db' =
      status_logs db ++
        [StatusLog.mk (next_log_id db) (Some (next_issue_id db)) "Reported" None]
  ∧ (logs_of db (next_issue_id db) = [] →
       logs_of db' (next_issue_id db) =
         [StatusLog.mk (next_log_id db) (Some (next_issue_id db)) "Reported" None])
  ∧ (images_of db (next_issue_id db) = [] →
       IssueImage.filename <$> images_of db' (next_issue_id db) =
         ["00000000-0000-4000-8000-000000000000.png"]).
Proof.
  apply (report_issue_success sample_env (fresh_db sample_users) 1
           sample_form ["street.PNG"; "notes.txt"] sample_issue
           ["00000000-0000-4000-8000-000000000000.png"]).
  - vm_compute. reflexivity.
  - vm_compute. reflexivity.
Defined.

(** ** What one request does to the issue table *)

Lemma put_issue_row_cases (db : Db) (i j : Z) (issue new issue' : Issue.t) :
  issues db !! i = Some issue →
  row_change issue new →
  <[i := new]> (issues db) !! j = Some issue' →
  match issues db !! j with
  | Some old => issue' = old ∨ row_change old issue'
  | None => False
  end.
Proof.
  intros Hi Hch Hj. apply lookup_insert_Some in Hj as [[<- <-]|[Hne Hj]].
  - rewrite Hi. by right.
  - rewrite Hj. by left.
Qed.

Lemma keep_row_cases (db : Db) (j : Z) (issue' : Issue.t) :
  issues db !! j = Some issue' →
  match issues db !! j with
  | Some old => issue' = old ∨ row_change old issue'
  | None => False
  end.
Proof. intros ->. by left. Qed.

Lemma exec_row_cases_old (E : Env) (db : Db) (op : Op) (j : Z)
    (issue' : Issue.t) :
  (∀ identity form files, op ≠ OpCreate identity form files) →
  issues (exec E db op) !! j = Some issue' →
  match issues db !! j with
  | Some old => issue' = old ∨ row_change old issue'
  | None => False
  end.
Proof.
  intros Hop. destruct op as [identity form files|identity i data
    |identity i data|identity i|identity i|identity i]; simpl.
  - by destruct (Hop identity form files).
  - unfold update_issue. destruct identity as [uid|]; [|apply keep_row_cases].
    unfold get_or_404.
    destruct (issues db !! i) as [issue|] eqn:Hi; [|apply keep_row_cases].
    cbv zeta.
    assert (∀ x : Exn + IssueView,
              issues (match x with
                      | inl e => (put_issue i (apply_fields data issue) db,
                                  Unhandled e)
                      | inr v => (put_issue i (apply_fields data issue) db,
                                  Reply 200 (BIssue v))
                      end).1 = <[i := apply_fields data issue]> (issues db))
      as Hfst by (by intros [?|?]).
    case_bool_decide.
    + destruct (users db !! uid) as [user|]; [|apply keep_row_cases].
      destruct (User.is_admin user); cbn [negb]; [|apply keep_row_cases].
      rewrite Hfst. apply (put_issue_row_cases db i j issue); [done|constructor].
    + rewrite Hfst. apply (put_issue_row_cases db i j issue); [done|constructor].
  - unfold update_issue_status.
    destruct identity as [uid|]; [|apply keep_row_cases].
    destruct (users db !! uid) as [user|]; [|apply keep_row_cases].
    destruct (User.is_admin user); cbn [negb]; [|apply keep_row_cases].
    unfold get_or_404.
    destruct (issues db !! i) as [issue|] eqn:Hi; [|apply keep_row_cases].
    destruct (data !! "status") as [s|]; [|apply keep_row_cases].
    destruct (truthy s) eqn:Ht; cbn [negb orb]; [|apply keep_row_cases].
    destruct (existsb (String.eqb s) settable_statuses) eqn:Hs;
      cbn [negb]; [|apply keep_row_cases].
    apply existsb_eqb_elem_of in Hs.
    assert (∀ x : Exn + IssueView,
              issues (match x with
                      | inl e => (add_log i s (Some uid)
                                    (put_issue i (Issue.set_status s issue) db),
                                  Unhandled e)
                      | inr v => (add_log i s (Some uid)
                                    (put_issue i (Issue.set_status s issue) db),
                                  Reply 200 (BIssue v))
                      end).1 = <[i := Issue.set_status s issue]> (issues db))
      as Hfst by (by intros [?|?]).
    rewrite Hfst.
    apply (put_issue_row_cases db i j issue); [done|by constructor].
  - unfold upvote_issue. destruct identity as [uid|]; [|apply keep_row_cases].
    unfold get_or_404.
    destruct (issues db !! i) as [issue|] eqn:Hi; [|apply keep_row_cases].
    cbn [fst]. apply (put_issue_row_cases db i j issue); [done|constructor].
  - unfold flag_issue. destruct identity as [uid|]; [|apply keep_row_cases].
    unfold get_or_404.
    destruct (issues db !! i) as [issue|] eqn:Hi; [|apply keep_row_cases].
    cbv zeta. cbn [Issue.flags Issue.set_flags].
    destruct (5 <=? Issue.flags issue + 1) eqn:H5; cbn [fst].
    + apply Z.leb_le in H5.
      apply (put_issue_row_cases db i j issue); [done|by constructor].
    + apply Z.leb_gt in H5.
      apply (put_issue_row_cases db i j issue); [done|by constructor].
  - unfold delete_issue. destruct identity as [uid|]; [|apply keep_row_cases].
    destruct (users db !! uid) as [user|]; [|apply keep_row_cases].
    destruct (User.is_admin user); cbn [negb]; [|apply keep_row_cases].
    unfold get_or_404.
    destruct (issues db !! i) as [issue|] eqn:Hi; [|apply keep_row_cases].
    cbn [fst issues]. intros [_ Hj]%lookup_delete_Some.
    by apply keep_row_cases.
Qed.

Lemma report_issue_issues (E : Env) (db : Db) (identity : option Z)
    (form : gmap string string) (files : list string) :
  issues (report_issue E db identity form files).1 = issues db
  ∨ ∃ uid issue,
      identity = Some uid
      ∧ new_issue E uid form = inr issue
      ∧ issues (report_issue E db identity form files).1 =
          <[next_issue_id db := issue]> (issues db).
Proof.
  unfold report_issue. destruct identity as [uid|]; [|by left].
  destruct (new_issue E uid form) as [e|issue] eqn:Hnew; [by left|].
  right. exists uid, issue. split; [done|]. split; [done|]. cbv zeta.
  destruct (save_uploads E 0 files); [done|].
  by destruct (format_issue _ _ _ _).
Qed.

Lemma row_cases
    (E : Env) (db : Db) (op : Op) (j : Z) (issue' : Issue.t) :
  issues (exec E db op) !! j = Some issue' →
  match issues db !! j with
  | Some old => issue' = old ∨ row_change old issue'
  | None =>
      j = next_issue_id db
      ∧ ∃ uid form files,
          op = OpCreate (Some uid) form files
          ∧ new_issue E uid form = inr issue'
  end.
Proof.
  intros Hj.
  destruct op as [identity form files|identity i data
    |identity i data|identity i|identity i|identity i] eqn:Hop.
  - simpl in Hj.
    destruct (report_issue_issues E db identity form files)
      as [Heq|(uid & issue & -> & Hnew & Heq)]; rewrite Heq in Hj.
    + rewrite Hj. by left.
    + apply lookup_insert_Some in Hj as [[<- <-]|[Hne Hj]].
      * rewrite next_issue_id_fresh. split; [done|]. eauto.
      * rewrite Hj. by left.
  - pose proof (exec_row_cases_old E db (OpEdit identity i data) j issue')
      as H. destruct (issues db !! j); [apply H; done|destruct H; done].
  - pose proof (exec_row_cases_old E db (OpSetStatus identity i data) j issue')
      as H. destruct (issues db !! j); [apply H; done|destruct H; done].
  - pose proof (exec_row_cases_old E db (OpUpvote identity i) j issue')
      as H. destruct (issues db !! j); [apply H; done|destruct H; done].
  - pose proof (exec_row_cases_old E db (OpFlag identity i) j issue')
      as H. destruct (issues db !! j); [apply H; done|destruct H; done].
  - pose proof (exec_row_cases_old E db (OpDelete identity i) j issue')
      as H. destruct (issues db !! j); [apply H; done|destruct H; done].
Qed.

(** X5: one request changes the issue table in a few ways only.  A row
    that was stored is afterwards as before, or edited in title,
    description and category, or given one of the three admin statuses, or
    upvoted by one, or flagged by one (with status Flagged once the count
    has reached 5).  A row under a key that was free is a new report under
    the next key, and only the create route writes one. *)
Theorem exec_row_cases
    (E : Env) (db : Db) (op : Op) (j : Z) (issue' : Issue.t) :
  issues (exec E db op) !! j = Some issue' →
  match issues db !! j with
  | Some old => issue' = old ∨ row_change old issue'
  | None =>
      j = next_issue_id db
      ∧ ∃ uid form files,
          op = OpCreate (Some uid) form files
          ∧ new_issue E uid form = inr issue'
  end.
Proof. apply row_cases. Qed.

Lemma exec_row_cases_witness :
  Issue.set_flags 1 sample_issue = sample_issue
  ∨ row_change sample_issue (Issue.set_flags 1 sample_issue).
Proof.
  pose proof (exec_row_cases sample_env sample_db (OpFlag (Some 3) 1) 1
                (Issue.set_flags 1 sample_issue)) as H.
  rewrite sample_db_issue in H. apply H. vm_compute. reflexivity.
Defined.

Lemma row_change_frame (old new : Issue.t) :
  row_change old new →
  Issue.latitude new = Issue.latitude old
  ∧ Issue.longitude new = Issue.longitude old
  ∧ Issue.user_id new = Issue.user_id old
  ∧ Issue.is_anonymous new = Issue.is_anonymous old
  ∧ Issue.upvotes old ≤ Issue.upvotes new ≤ Issue.upvotes old + 1
  ∧ Issue.flags old ≤ Issue.flags new ≤ Issue.flags old + 1
  ∧ (Issue.status new = Issue.status old
     ∨ Issue.status new ∈ known_statuses).
Proof.
  intros [data|s Hs| |Hlow|Hhigh].
  - destruct (apply_fields_frame data old)
      as (_ & _ & _ & Hst & Hup & Hf & Hla & Hlo & Hu & Han).
    rewrite Hst, Hup, Hf, Hla, Hlo, Hu, Han. repeat split; try lia. by left.
  - simpl. repeat split; try lia. right.
    unfold settable_statuses, known_statuses in *.
    rewrite !elem_of_cons, elem_of_nil in Hs. rewrite !elem_of_cons. tauto.
  - simpl. repeat split; try lia. by left.
  - simpl. repeat split; try lia. by left.
  - simpl. repeat split; try lia. right.
    unfold known_statuses. rewrite !elem_of_cons. tauto.
Qed.

(** X6: no request moves an issue, changes its reporter or its
    anonymity, or lowers a count: for a row stored before and after one
    request, coordinates, owner and anonymity are the same, and upvotes and
    flags have grown by 0 or 1 each. *)
Theorem exec_keeps_place_and_counts
    (E : Env) (db : Db) (op : Op) (j : Z) (old new : Issue.t) :
  issues db !! j = Some old →
  issues (exec E db op) !! j = Some new →
  Issue.latitude new = Issue.latitude old
  ∧ Issue.longitude new = Issue.longitude old
  ∧ Issue.user_id new = Issue.user_id old
  ∧ Issue.is_anonymous new = Issue.is_anonymous old
  ∧ Issue.upvotes old ≤ Issue.upvotes new ≤ Issue.upvotes old + 1
  ∧ Issue.flags old ≤ Issue.flags new ≤ Issue.flags old + 1.
Proof.
  intros Hold Hnew. pose proof (row_cases E db op j new Hnew) as H.
  rewrite Hold in H. destruct H as [->|Hch].
  - repeat split; lia.
  - destruct (row_change_frame old new Hch)
      as (? & ? & ? & ? & ? & ? & _). done.
Qed.

Lemma exec_keeps_place_witness :
  let new := Issue.set_flags 1 sample_issue in
  Issue.latitude new = Issue.latitude sample_issue
  ∧ Issue.longitude new = Issue.longitude sample_issue
  ∧ Issue.user_id new = Issue.user_id sample_issue
  ∧ Issue.is_anonymous new = Issue.is_anonymous sample_issue
  ∧ Issue.upvotes sample_issue ≤ Issue.upvotes new
      ≤ Issue.upvotes sample_issue + 1
  ∧ Issue.flags sample_issue ≤ Issue.flags new
      ≤ Issue.flags sample_issue + 1.
Proof.
  apply (exec_keeps_place_and_counts sample_env sample_db
           (OpFlag (Some 3) 1) 1 sample_issue
           (Issue.set_flags 1 sample_issue)).
  - apply sample_db_issue.
  - vm_compute. reflexivity.
Defined.

(** ** Invariants of the issue rows *)

Lemma rows_inv_exec (P : Issue.t → Prop) (E : Env) (db : Db) (op : Op) :
  (∀ uid form issue, new_issue E uid form = inr issue → P issue) →
  (∀ old new, P old → row_change old new → P new) →
  (∀ j issue, issues db !! j = Some issue → P issue) →
  ∀ j issue, issues (exec E db op) !! j = Some issue → P issue.
Proof.
  intros Hnew Hstep Hdb j issue Hj.
  pose proof (row_cases E db op j issue Hj) as H.
  destruct (issues db !! j) as [old|] eqn:Hold.
  - destruct H as [->|Hch]; [by eapply Hdb|]. eapply Hstep; [|done].
    by eapply Hdb.
  - destruct H as (_ & uid & form & files & _ & Hn). by eapply Hnew.
Qed.

Lemma rows_inv_run (P : Issue.t → Prop) (E : Env) (ops : list Op) :
  (∀ uid form issue, new_issue E uid form = inr issue → P issue) →
  (∀ old new, P old → row_change old new → P new) →
  ∀ db,
    (∀ j issue, issues db !! j = Some issue → P issue) →
    ∀ j issue, issues (run E db ops) !! j = Some issue → P issue.
Proof.
  intros Hnew Hstep. induction ops as [|op ops IH]; intros db Hdb; [done|].
  simpl. apply IH. by apply rows_inv_exec.
Qed.

(** X7: in every state reached from a database without issues, the
    status of an issue is one of Reported, In Progress, Resolved, Flagged,
    and its upvote and flag counts are not negative. *)
Theorem reachable_rows_well_formed
    (E : Env) (us : gmap Z User.t) (ops : list Op) (j : Z) (issue : Issue.t) :
  issues (run E (fresh_db us) ops) !! j = Some issue →
  Issue.status issue ∈ known_statuses
  ∧ 0 ≤ Issue.upvotes issue
  ∧ 0 ≤ Issue.flags issue.
Proof.
  apply (rows_inv_run
           (λ issue, Issue.status issue ∈ known_statuses
                     ∧ 0 ≤ Issue.upvotes issue ∧ 0 ≤ Issue.flags issue)
           E ops).
  - intros uid form issue' Hnew.
    destruct (new_issue_defaults E uid form issue' Hnew) as (-> & -> & -> & _).
    split; [|lia]. unfold known_statuses. rewrite !elem_of_cons. tauto.
  - intros old new (Hs & Hu & Hf) Hch.
    destruct (row_change_frame old new Hch)
      as (_ & _ & _ & _ & Hup & Hfl & [->|Hst]); repeat split; try done; lia.
  - intros k issue' Hk. unfold fresh_db in Hk. cbn [issues] in Hk.
    by rewrite lookup_empty in Hk.
Qed.

Lemma reachable_rows_witness :
  Issue.status (Issue.mk "Pothole" "Deep one" "pothole" 12 77 "Resolved"
                  1 false 0 5) ∈ known_statuses
  ∧ 0 ≤ 0 ∧ 0 ≤ 5.
Proof.
  apply (reachable_rows_well_formed sample_env sample_users
           flagged_then_resolved 1
           (Issue.mk "Pothole" "Deep one" "pothole" 12 77 "Resolved"
              1 false 0 5)).
  vm_compute. reflexivity.
Defined.

(** ** References between the tables *)

Lemma refs_resolve_put (db : Db) (i : Z) (issue : Issue.t) :
  refs_resolve db → refs_resolve (put_issue i issue db).
Proof.
  intros [Himg Hlog]. split.
  - intros img k Hin Hk. simpl. rewrite lookup_insert_is_Some.
    destruct (decide (i = k)); [by left|right]. split; [done|].
    by apply (Himg img).
  - intros log k Hin Hk. simpl. rewrite lookup_insert_is_Some.
    destruct (decide (i = k)); [by left|right]. split; [done|].
    by apply (Hlog log).
Qed.

Lemma refs_resolve_add_log (db : Db) (i : Z) (s : string) (a : option Z) :
  is_Some (issues db !! i) → refs_resolve db →
  refs_resolve (add_log i s a db).
Proof.
  intros Hi [Himg Hlog]. split; [exact Himg|].
  intros log k Hin Hk. simpl in Hin. apply elem_of_app in Hin as [Hin|Hin].
  - by apply (Hlog log).
  - apply list_elem_of_singleton in Hin as ->. simpl in Hk.
    by inversion Hk; subst.
Qed.

Lemma refs_resolve_add_images (db : Db) (i : Z) (names : list string) :
  is_Some (issues db !! i) → refs_resolve db →
  refs_resolve (add_images i names db).
Proof.
  intros Hi [Himg Hlog]. split; [|exact Hlog].
  intros img k Hin Hk. simpl in Hin. apply elem_of_app in Hin as [Hin|Hin].
  - by apply (Himg img).
  - apply elem_of_lookup_imap in Hin as (n & name & -> & _). simpl in Hk.
    by inversion Hk; subst.
Qed.

Lemma refs_resolve_exec (E : Env) (db : Db) (op : Op) :
  refs_resolve db → refs_resolve (exec E db op).
Proof.
  intros Hrefs. destruct op as [identity form files|identity i data
    |identity i data|identity i|identity i|identity i]; simpl.
  - unfold report_issue. destruct identity as [uid|]; [|done].
    destruct (new_issue E uid form) as [e|issue]; [done|]. cbv zeta.
    assert (is_Some (issues (put_issue (next_issue_id db) issue db)
                       !! next_issue_id db)) as Hnew.
    { simpl. rewrite lookup_insert_eq. by eexists. }
    destruct (save_uploads E 0 files) as [e|names]; cbn [fst].
    + by apply refs_resolve_put.
    + assert (refs_resolve
                (add_log (next_issue_id db) "Reported" None
                   (add_images (next_issue_id db) names
                      (put_issue (next_issue_id db) issue db)))) as H.
      { apply refs_resolve_add_log; [done|].
        apply refs_resolve_add_images; [done|]. by apply refs_resolve_put. }
      by destruct (format_issue _ _ _ _).
  - unfold update_issue. destruct identity as [uid|]; [|done].
    unfold get_or_404. destruct (issues db !! i) as [issue|]; [|done].
    cbv zeta.
    assert (refs_resolve
              (match format_issue (put_issue i (apply_fields data issue) db) i
                       (apply_fields data issue) (Some uid) with
               | inl e => (put_issue i (apply_fields data issue) db, Unhandled e)
               | inr v => (put_issue i (apply_fields data issue) db,
                           Reply 200 (BIssue v))
               end).1) as Hok.
    { destruct (format_issue _ _ _ _); by apply refs_resolve_put. }
    case_bool_decide; [|done].
    destruct (users db !! uid) as [user|]; [|done].
    by destruct (User.is_admin user).
  - unfold update_issue_status. destruct identity as [uid|]; [|done].
    destruct (users db !! uid) as [user|]; [|done].
    destruct (User.is_admin user); [|done]. cbn [negb].
    unfold get_or_404. destruct (issues db !! i) as [issue|]; [|done].
    destruct (data !! "status") as [s|]; [|done].
    destruct (negb (truthy s)
              || negb (existsb (String.eqb s) settable_statuses))%bool; [done|].
    assert (refs_resolve (add_log i s (Some uid)
                            (put_issue i (Issue.set_status s issue) db))) as H.
    { apply refs_resolve_add_log; [|by apply refs_resolve_put].
      simpl. rewrite lookup_insert_eq. by eexists. }
    by destruct (format_issue _ _ _ _).
  - unfold upvote_issue. destruct identity as [uid|]; [|done].
    unfold get_or_404. destruct (issues db !! i) as [issue|]; [|done].
    by apply refs_resolve_put.
  - unfold flag_issue. destruct identity as [uid|]; [|done].
    unfold get_or_404. destruct (issues db !! i) as [issue|]; [|done].
    cbv zeta. destruct (5 <=? _); cbn [fst].
    + apply refs_resolve_add_log; [|by apply refs_resolve_put].
      simpl. rewrite lookup_insert_eq. by eexists.
    + by apply refs_resolve_put.
  - unfold delete_issue. destruct identity as [uid|]; [|done].
    destruct (users db !! uid) as [user|]; [|done].
    destruct (User.is_admin user); [|done]. cbn [negb].
    unfold get_or_404. destruct (issues db !! i) as [issue|]; [|done].
    cbn [fst]. destruct Hrefs as [Himg Hlog]. split.
    + intros img k Hin Hk. cbn [issue_images issues] in *.
      apply list_elem_of_fmap in Hin as (img0 & -> & Hin0).
      unfold orphan_image in Hk. case_bool_decide as Hi; [done|].
      rewrite lookup_delete_is_Some. split; [congruence|].
      by apply (Himg img0).
    + intros log k Hin Hk. cbn [status_logs issues] in *.
      apply list_elem_of_fmap in Hin as (log0 & -> & Hin0).
      unfold orphan_log in Hk. case_bool_decide as Hi; [done|].
      rewrite lookup_delete_is_Some. split; [congruence|].
      by apply (Hlog log0).
Qed.

Lemma refs_resolve_run (E : Env) (ops : list Op) :
  ∀ db, refs_resolve db → refs_resolve (run E db ops).
Proof.
  induction ops as [|op ops IH]; intros db Hdb; [done|].
  simpl. apply IH. by apply refs_resolve_exec.
Qed.

Lemma refs_resolve_fresh (us : gmap Z User.t) : refs_resolve (fresh_db us).
Proof.
  split; intros x k Hin; simpl in Hin; by apply elem_of_nil in Hin.
Qed.

(** X8: in every state reached from a database without issues, an image
    row or log row that names an issue names one that is stored; so a key
    that is free has no images and no log, and a new report under it starts
    with none. *)
Theorem reachable_refs_resolve
    (E : Env) (us : gmap Z User.t) (ops : list Op) :
  let db := run E (fresh_db us) ops in
  refs_resolve db
  ∧ ∀ i, issues db !! i = None → images_of db i = [] ∧ logs_of db i = [].
Proof.
  intros db.
  assert (refs_resolve db) as Hrefs
    by apply refs_resolve_run, refs_resolve_fresh.
  split; [done|]. intros i Hnone. destruct Hrefs as [Himg Hlog]. split.
  - unfold images_of.
    destruct (filter _ (issue_images db)) as [|img rest] eqn:Hf; [done|].
    assert (img ∈ filter (λ img, IssueImage.issue_id img = Some i)
                    (issue_images db)) as Hin by (rewrite Hf; by left).
    apply list_elem_of_filter in Hin as [Hk Hin].
    destruct (Himg img i Hin Hk) as [? ?]. congruence.
  - unfold logs_of.
    destruct (filter _ (status_logs db)) as [|log rest] eqn:Hf; [done|].
    assert (log ∈ filter (λ log, StatusLog.issue_id log = Some i)
                    (status_logs db)) as Hin by (rewrite Hf; by left).
    apply list_elem_of_filter in Hin as [Hk Hin].
    destruct (Hlog log i Hin Hk) as [? ?]. congruence.
Qed.

Lemma reachable_refs_resolve_witness :
  let db := run sample_env (fresh_db sample_users)
              [OpCreate (Some 1) sample_form ["street.PNG"];
               OpDelete (Some 2) 1] in
  images_of db 1 = [] ∧ logs_of db 1 = [].
Proof.
  apply (proj2 (reachable_refs_resolve sample_env sample_users
                  [OpCreate (Some 1) sample_form ["street.PNG"];
                   OpDelete (Some 2) 1]) 1).
  vm_compute. reflexivity.
Defined.

(** ** The log follows the status *)

Lemma log_current_ext (db db' : Db) :
  issues db' = issues db → status_logs db' = status_logs db →
  log_current db → log_current db'.
Proof.
  intros Hi Hl Hinv i issue log. unfold logs_of. rewrite Hi, Hl. apply Hinv.
Qed.

Lemma log_current_put (db : Db) (i : Z) (issue : Issue.t) :
  log_current db →
  (∀ log, last (logs_of db i) = Some log →
     StatusLog.status log = Issue.status issue) →
  log_current (put_issue i issue db).
Proof.
  intros Hinv Hnew j issue' log Hj Hlast. simpl in Hj.
  rewrite logs_of_put_issue in Hlast.
  apply lookup_insert_Some in Hj as [[<- <-]|[Hne Hj]].
  - by apply Hnew.
  - by apply (Hinv j).
Qed.

Lemma log_current_put_log (db : Db) (i : Z) (issue : Issue.t) (s : string)
    (a : option Z) :
  log_current db →
  s = Issue.status issue →
  log_current (add_log i s a (put_issue i issue db)).
Proof.
  intros Hinv -> j issue' log Hj Hlast. simpl in Hj.
  apply lookup_insert_Some in Hj as [[<- <-]|[Hne Hj]].
  - rewrite logs_of_add_log_eq, last_snoc in Hlast. by inversion Hlast.
  - rewrite logs_of_add_log_ne, logs_of_put_issue in Hlast by done.
    by apply (Hinv j).
Qed.

Lemma log_current_exec (E : Env) (db : Db) (op : Op) :
  refs_resolve db → log_current db → log_current (exec E db op).
Proof.
  intros Hrefs Hinv. destruct op as [identity form files|identity i data
    |identity i data|identity i|identity i|identity i]; simpl.
  - unfold report_issue. destruct identity as [uid|]; [|done].
    destruct (new_issue E uid form) as [e|issue] eqn:Hnew; [done|].
    destruct (new_issue_defaults E uid form issue Hnew) as (Hs & _).
    cbv zeta.
    assert (logs_of db (next_issue_id db) = []) as Hnone.
    { destruct Hrefs as [_ Hlog]. unfold logs_of.
      destruct (filter _ (status_logs db)) as [|log rest] eqn:Hf; [done|].
      assert (log ∈ filter (λ log, StatusLog.issue_id log
                                   = Some (next_issue_id db))
                      (status_logs db)) as Hin by (rewrite Hf; by left).
      apply list_elem_of_filter in Hin as [Hk Hin].
      destruct (Hlog log _ Hin Hk) as [x Hx].
      by rewrite next_issue_id_fresh in Hx. }
    destruct (save_uploads E 0 files) as [e|names]; cbn [fst].
    + apply log_current_put; [done|]. by rewrite Hnone.
    + assert (log_current
                (add_log (next_issue_id db) "Reported" None
                   (add_images (next_issue_id db) names
                      (put_issue (next_issue_id db) issue db)))) as H.
      { apply (log_current_ext
                 (add_log (next_issue_id db) "Reported" None
                    (put_issue (next_issue_id db) issue db))); [done|done|].
        by apply log_current_put_log. }
      by destruct (format_issue _ _ _ _).
  - unfold update_issue. destruct identity as [uid|]; [|done].
    unfold get_or_404. destruct (issues db !! i) as [issue|] eqn:Hi; [|done].
    cbv zeta.
    assert (log_current (put_issue i (apply_fields data issue) db)) as Hput.
    { apply log_current_put; [done|]. intros log Hlast.
      destruct (apply_fields_frame data issue) as (_ & _ & _ & -> & _).
      by apply (Hinv i). }
    assert (log_current
              (match format_issue (put_issue i (apply_fields data issue) db) i
                       (apply_fields data issue) (Some uid) with
               | inl e => (put_issue i (apply_fields data issue) db, Unhandled e)
               | inr v => (put_issue i (apply_fields data issue) db,
                           Reply 200 (BIssue v))
               end).1) as Hok by (by destruct (format_issue _ _ _ _)).
    case_bool_decide; [|done].
    destruct (users db !! uid) as [user|]; [|done].
    by destruct (User.is_admin user).
  - unfold update_issue_status. destruct identity as [uid|]; [|done].
    destruct (users db !! uid) as [user|]; [|done].
    destruct (User.is_admin user); [|done]. cbn [negb].
    unfold get_or_404. destruct (issues db !! i) as [issue|]; [|done].
    destruct (data !! "status") as [s|]; [|done].
    destruct (negb (truthy s)
              || negb (existsb (String.eqb s) settable_statuses))%bool; [done|].
    assert (log_current (add_log i s (Some uid)
                           (put_issue i (Issue.set_status s issue) db))) as H
      by (by apply log_current_put_log).
    by destruct (format_issue _ _ _ _).
  - unfold upvote_issue. destruct identity as [uid|]; [|done].
    unfold get_or_404. destruct (issues db !! i) as [issue|] eqn:Hi; [|done].
    cbn [fst]. apply log_current_put; [done|]. intros log Hlast.
    simpl. by apply (Hinv i).
  - unfold flag_issue. destruct identity as [uid|]; [|done].
    unfold get_or_404. destruct (issues db !! i) as [issue|] eqn:Hi; [|done].
    cbv zeta. destruct (5 <=? _); cbn [fst].
    + by apply log_current_put_log.
    + apply log_current_put; [done|]. intros log Hlast. simpl.
      by apply (Hinv i).
  - unfold delete_issue. destruct identity as [uid|]; [|done].
    destruct (users db !! uid) as [user|]; [|done].
    destruct (User.is_admin user); [|done]. cbn [negb].
    unfold get_or_404. destruct (issues db !! i) as [issue|]; [|done].
    cbn [fst]. intros j issue' log Hj Hlast. simpl in Hj.
    apply lookup_delete_Some in Hj as [Hne Hj].
    unfold logs_of in Hlast. cbn [status_logs] in Hlast.
    rewrite orphan_log_other in Hlast by done. by apply (Hinv j).
Qed.

Lemma log_current_run (E : Env) (ops : list Op) :
  ∀ db, refs_resolve db → log_current db → log_current (run E db ops).
Proof.
  induction ops as [|op ops IH]; intros db Hrefs Hinv; [done|].
  simpl. apply IH; [by apply refs_resolve_exec|by apply log_current_exec].
Qed.

(** X9: in every state reached from a database without issues, the
    latest log entry of an issue, when it has one, carries the current
    status of the issue.  (A report whose upload failed has no entry; the
    status of every other issue can be read off its log.) *)
Theorem reachable_log_current
    (E : Env) (us : gmap Z User.t) (ops : list Op) (i : Z)
    (issue : Issue.t) (log : StatusLog.t) :
  let db := run E (fresh_db us) ops in
  issues db !! i = Some issue →
  last (logs_of db i) = Some log →
  StatusLog.status log = Issue.status issue.
Proof.
  intros db. apply (log_current_run E ops (fresh_db us)).
  - apply refs_resolve_fresh.
  - intros j issue' log' Hj. unfold fresh_db in Hj. cbn [issues] in Hj.
    by rewrite lookup_empty in Hj.
Qed.

Lemma reachable_log_current_witness :
  StatusLog.status (StatusLog.mk 3 (Some 1) "Resolved" (Some 2)) =
  Issue.status (Issue.mk "Pothole" "Deep one" "pothole" 12 77 "Resolved"
                  1 false 0 5).
Proof.
  apply (reachable_log_current sample_env sample_users
           flagged_then_resolved 1).
  - vm_compute. reflexivity.
  - vm_compute. reflexivity.
Defined.

(** ** Requests that are refused *)

(** X10: a request to the edit, status, upvote, flag or delete route that
    is answered with a code other than 200 leaves the database exactly as
    it was. *)
Theorem refused_request_has_no_effect
    (E : Env) (db : Db) (op : Op) (code : Z) (body : Body) :
  (∀ identity form files, op ≠ OpCreate identity form files) →
  answer E db op = Reply code body →
  code ≠ 200 →
  exec E db op = db.
Proof.
  intros Hop. destruct op as [identity form files|identity i data
    |identity i data|identity i|identity i|identity i]; simpl.
  - by destruct (Hop identity form files).
  - unfold update_issue. destruct identity as [uid|]; [|done].
    unfold get_or_404. destruct (issues db !! i) as [issue|]; [|done].
    cbv zeta.
    assert (∀ x : Exn + IssueView,
              (match x with
               | inl e => (put_issue i (apply_fields data issue) db, Unhandled e)
               | inr v => (put_issue i (apply_fields data issue) db,
                           Reply 200 (BIssue v))
               end).2 = Reply code body →
              code ≠ 200 → False) as Hok.
    { intros [e|v]; simpl; [done|]. by intros [= <- _]. }
    case_bool_decide.
    + destruct (users db !! uid) as [user|]; [|done].
      destruct (User.is_admin user); cbn [negb]; [|done].
      intros H1 H2. destruct (Hok _ H1 H2).
    + intros H1 H2. destruct (Hok _ H1 H2).
  - unfold update_issue_status. destruct identity as [uid|]; [|done].
    destruct (users db !! uid) as [user|]; [|done].
    destruct (User.is_admin user); cbn [negb]; [|done].
    unfold get_or_404. destruct (issues db !! i) as [issue|]; [|done].
    destruct (data !! "status") as [s|]; [|done].
    destruct (negb (truthy s)
              || negb (existsb (String.eqb s) settable_statuses))%bool; [done|].
    destruct (format_issue _ _ _ _); simpl; [done|]. by intros [= <- _].
  - unfold upvote_issue. destruct identity as [uid|]; [|done].
    unfold get_or_404. destruct (issues db !! i) as [issue|]; [|done].
    simpl. by intros [= <- _].
  - unfold flag_issue. destruct identity as [uid|]; [|done].
    unfold get_or_404. destruct (issues db !! i) as [issue|]; [|done].
    cbv zeta. destruct (5 <=? _); simpl; by intros [= <- _].
  - unfold delete_issue. destruct identity as [uid|]; [|done].
    destruct (users db !! uid) as [user|]; [|done].
    destruct (User.is_admin user); cbn [negb]; [|done].
    unfold get_or_404. destruct (issues db !! i) as [issue|]; [|done].
    simpl. by intros [= <- _].
Qed.

Lemma refused_request_witness :
  exec sample_env sample_db (OpDelete (Some 3) 1) = sample_db.
Proof.
  apply (refused_request_has_no_effect sample_env sample_db
           (OpDelete (Some 3) 1) 403 (BError "Unauthorized")).
  - intros identity form files. discriminate.
  - vm_compute. reflexivity.
  - discriminate.
Defined.

Lemma missing_issue_routes
    (db : Db) (uid i : Z) (user : User.t) (data : gmap string string) :
  issues db !! i = None →
  users db !! uid = Some user →
  update_issue db (Some uid) i data = (db, Reply 404 BAbort)
  ∧ upvote_issue db (Some uid) i = (db, Reply 404 BAbort)
  ∧ flag_issue db (Some uid) i = (db, Reply 404 BAbort)
  ∧ update_issue_status db (Some uid) i data =
      (db, if User.is_admin user then Reply 404 BAbort
           else Reply 403 (BError "Unauthorized"))
  ∧ delete_issue db (Some uid) i =
      (db, if User.is_admin user then Reply 404 BAbort
           else Reply 403 (BError "Unauthorized")).
Proof.
  intros Hi Hu.
  unfold update_issue, upvote_issue, flag_issue, update_issue_status,
    delete_issue.
  rewrite (get_or_404_None db i Hi), Hu.
  by destruct (User.is_admin user).
Qed.

(** X11: on an issue id that a URL can carry and the database can look
    up (from 0 to below 2^63) and that is not stored, the edit, upvote and
    flag routes answer 404 to every registered principal.  The status and
    delete routes look at the principal first: they answer 403 to a user
    who is no admin and 404 to an admin.  Nothing is written. *)
Theorem missing_issue_answers
    (db : Db) (uid i : Z) (user : User.t) (data : gmap string string) :
  0 ≤ i < 2 ^ 63 →
  issues db !! i = None →
  users db !! uid = Some user →
  update_issue db (Some uid) i data = (db, Reply 404 BAbort)
  ∧ upvote_issue db (Some uid) i = (db, Reply 404 BAbort)
  ∧ flag_issue db (Some uid) i = (db, Reply 404 BAbort)
  ∧ update_issue_status db (Some uid) i data =
      (db, if User.is_admin user then Reply 404 BAbort
           else Reply 403 (BError "Unauthorized"))
  ∧ delete_issue db (Some uid) i =
      (db, if User.is_admin user then Reply 404 BAbort
           else Reply 403 (BError "Unauthorized")).
Proof. intros _. apply missing_issue_routes. Qed.

Lemma missing_issue_witness :
  update_issue sample_db (Some 3) 9 ∅ = (sample_db, Reply 404 BAbort)
  ∧ upvote_issue sample_db (Some 3) 9 = (sample_db, Reply 404 BAbort)
  ∧ flag_issue sample_db (Some 3) 9 = (sample_db, Reply 404 BAbort)
  ∧ update_issue_status sample_db (Some 3) 9 ∅ =
      (sample_db, Reply 403 (BError "Unauthorized"))
  ∧ delete_issue sample_db (Some 3) 9 =
      (sample_db, Reply 403 (BError "Unauthorized")).
Proof.
  apply (missing_issue_answers sample_db 3 9 (User.mk "ravi" false) ∅).
  - lia.
  - vm_compute. reflexivity.
  - vm_compute. reflexivity.
Defined.

(** X12: on the state right after an admin has deleted an issue, the id
    is answered like one that was never stored, to every registered
    principal: an edit, an upvote and a flag with 404; a status update and
    a second delete with 404 to an admin and with 403 to any other user.
    None of these requests changes the database. *)
Theorem deleted_issue_answers
    (db : Db) (uid i : Z) (user : User.t) (issue : Issue.t)
    (data : gmap string string) :
  users db !! uid = Some user →
  User.is_admin user = true →
  issues db !! i = Some issue →
  let db' := (delete_issue db (Some uid) i).1 in
  ∀ uid' user',
    users db !! uid' = Some user' →
    update_issue db' (Some uid') i data = (db', Reply 404 BAbort)
    ∧ upvote_issue db' (Some uid') i = (db', Reply 404 BAbort)
    ∧ flag_issue db' (Some uid') i = (db', Reply 404 BAbort)
    ∧ update_issue_status db' (Some uid') i data =
        (db', if User.is_admin user' then Reply 404 BAbort
              else Reply 403 (BError "Unauthorized"))
    ∧ delete_issue db' (Some uid') i =
        (db', if User.is_admin user' then Reply 404 BAbort
              else Reply 403 (BError "Unauthorized")).
Proof.
  intros Hu Ha Hi db' uid' user' Hu'. subst db'.
  rewrite (delete_issue_admin db uid i user issue Hu Ha Hi). cbn [fst].
  set (db' := mkDb _ _ _ _).
  assert (issues db' !! i = None) as Hnone by apply lookup_delete_eq.
  by apply missing_issue_routes.
Qed.

Lemma deleted_issue_answers_witness :
  let db' := (delete_issue sample_db (Some 2) 1).1 in
  update_issue db' (Some 1) 1 ∅ = (db', Reply 404 BAbort)
  ∧ upvote_issue db' (Some 1) 1 = (db', Reply 404 BAbort)
  ∧ flag_issue db' (Some 1) 1 = (db', Reply 404 BAbort)
  ∧ update_issue_status db' (Some 1) 1 ∅ =
      (db', Reply 403 (BError "Unauthorized"))
  ∧ delete_issue db' (Some 1) 1 = (db', Reply 403 (BError "Unauthorized")).
Proof.
  apply (deleted_issue_answers sample_db 2 1 (User.mk "root" true)
           sample_issue ∅
           ltac:(vm_compute; reflexivity) eq_refl sample_db_issue
           1 (User.mk "asha" false)).
  vm_compute. reflexivity.
Defined.

(** ** Edits compose *)

Lemma apply_fields_idem (data : gmap string string) (issue : Issue.t) :
  apply_fields data (apply_fields data issue) = apply_fields data issue.
Proof.
  unfold apply_fields.
  by destruct (data !! "title"), (data !! "description"), (data !! "category").
Qed.

Lemma put_issue_twice (db : Db) (i : Z) (issue : Issue.t) :
  put_issue i issue (put_issue i issue db) = put_issue i issue db.
Proof. unfold put_issue. simpl. by rewrite insert_insert_eq. Qed.

Lemma put_issue_same (db : Db) (i : Z) (issue : Issue.t) :
  issues db !! i = Some issue → put_issue i issue db = db.
Proof.
  intros Hi. unfold put_issue. rewrite insert_id by done. by destruct db.
Qed.

(** X13: an edit that is allowed can be repeated: the same request sent
    again leaves the database and the answer as after the first time.  An
    allowed edit that carries none of title, description and category
    leaves the database as it was. *)
Theorem update_issue_idempotent
    (db : Db) (uid i : Z) (issue : Issue.t) (data : gmap string string) :
  issues db !! i = Some issue →
  Issue.user_id issue = uid
  ∨ (∃ user, users db !! uid = Some user ∧ User.is_admin user = true) →
  let r := update_issue db (Some uid) i data in
  update_issue r.1 (Some uid) i data = r
  ∧ (data !! "title" = None → data !! "description" = None →
     data !! "category" = None → r.1 = db).
Proof.
  intros Hi Hauth r. subst r.
  rewrite (update_issue_allowed db uid i issue data Hi Hauth). cbv zeta.
  set (issue' := apply_fields data issue).
  set (db' := put_issue i issue' db).
  assert (∀ x : Exn + IssueView,
            (match x with
             | inl e => (db', Unhandled e)
             | inr v => (db', Reply 200 (BIssue v))
             end).1 = db') as Hfst by (by intros [?|?]).
  rewrite Hfst. split.
  - assert (issues db' !! i = Some issue') as Hi'
      by (subst db'; simpl; apply lookup_insert_eq).
    rewrite (update_issue_allowed db' uid i issue' data Hi').
    + cbv zeta. subst issue'. rewrite apply_fields_idem.
      subst db'. by rewrite put_issue_twice.
    + destruct (apply_fields_frame data issue)
        as (_ & _ & _ & _ & _ & _ & _ & _ & Hu & _).
      fold issue' in Hu. rewrite Hu. exact Hauth.
  - intros Ht Hd Hc. subst db' issue'. unfold apply_fields.
    rewrite Ht, Hd, Hc. by apply put_issue_same.
Qed.

Lemma update_issue_idempotent_witness :
  (let r := update_issue sample_db (Some 1) 1 {["title" := "Crater"]} in
   update_issue r.1 (Some 1) 1 {["title" := "Crater"]} = r)
  ∧ (update_issue sample_db (Some 1) 1 ∅).1 = sample_db.
Proof.
  split.
  - apply (update_issue_idempotent sample_db 1 1 sample_issue
             {["title" := "Crater"]}).
    + apply sample_db_issue.
    + left. reflexivity.
  - apply (update_issue_idempotent sample_db 1 1 sample_issue ∅).
    + apply sample_db_issue.
    + left. reflexivity.
    + apply lookup_empty.
    + apply lookup_empty.
    + apply lookup_empty.
Defined.

(** ** Flags below the threshold *)

Lemma flags_by_below (principals : list Z) (i : Z) :
  ∀ (db : Db) (issue : Issue.t),
    issues db !! i = Some issue →
    Issue.flags issue + Z.of_nat (length principals) < 5 →
    issues (flags_by db i principals) !! i =
      Some (Issue.set_flags
              (Issue.flags issue + Z.of_nat (length principals)) issue)
    ∧ status_logs (flags_by db i principals) = status_logs db
    ∧ issue_images (flags_by db i principals) = issue_images db.
Proof.
  induction principals as [|u us IH]; intros db issue Hi Hlt.
  - simpl. rewrite Hi, Z.add_0_r. by destruct issue.
  - change (flags_by db i (u :: us))
      with (flags_by (flag_issue db (Some u) i).1 i us).
    rewrite (flag_issue_found db u i issue Hi).
    rewrite length_cons in Hlt.
    destruct (5 <=? Issue.flags issue + 1) eqn:H5.
    { apply Z.leb_le in H5. lia. }
    cbn [fst].
    destruct (IH (put_issue i (Issue.set_flags (Issue.flags issue + 1) issue) db)
                 (Issue.set_flags (Issue.flags issue + 1) issue))
      as (Hl & Hlogs & Himgs).
    + simpl. apply lookup_insert_eq.
    + simpl. lia.
    + rewrite Hl, Hlogs, Himgs. split; [|done].
      unfold Issue.set_flags. simpl. do 2 f_equal. lia.
Qed.

(** X14: flag requests that keep the count below 5 only count: after n
    of them on an issue with f flags, f + n < 5, the issue has f + n flags
    and is otherwise as before (its status too), no log entry and no image
    row has been written, and the next flag request answers f + n + 1. *)
Theorem flags_below_threshold_only_count
    (db : Db) (i : Z) (issue : Issue.t) (principals : list Z) :
  issues db !! i = Some issue →
  let n := Z.of_nat (length principals) in
  Issue.flags issue + n < 5 →
  let db' := flags_by db i principals in
  issues db' !! i = Some (Issue.set_flags (Issue.flags issue + n) issue)
  ∧ status_logs db' = status_logs db
  ∧ issue_images db' = issue_images db
  ∧ ∀ u, (flag_issue db' (Some u) i).2 =
           Reply 200 (BFlags (Issue.flags issue + n + 1)).
Proof.
  intros Hi n Hlt db'.
  destruct (flags_by_below principals i db issue Hi Hlt) as (Hl & Hlogs & Himgs).
  fold db' in Hl, Hlogs, Himgs. fold n in Hl.
  split; [done|]. split; [done|]. split; [done|].
  intros u. rewrite (flag_issue_found db' u i _ Hl).
  cbn [Issue.flags Issue.set_flags]. by destruct (5 <=? _).
Qed.

Lemma flags_below_threshold_witness :
  let db' := flags_by sample_db 1 [3; 3; 4] in
  issues db' !! 1 = Some (Issue.set_flags (Issue.flags sample_issue + 3)
                            sample_issue)
  ∧ status_logs db' = status_logs sample_db
  ∧ issue_images db' = issue_images sample_db
  ∧ ∀ u, (flag_issue db' (Some u) 1).2 =
           Reply 200 (BFlags (Issue.flags sample_issue + 3 + 1)).
Proof.
  apply (flags_below_threshold_only_count sample_db 1 sample_issue [3; 3; 4]).
  - apply sample_db_issue.
  - vm_compute. reflexivity.
Defined.

(** ** The admin listing *)

Lemma format_issue_raises (db : Db) (i : Z) (issue : Issue.t) (cur : option Z)
    (e : Exn) :
  format_issue db i issue cur = inl e →
  e = AttributeError
  ∧ Issue.is_anonymous issue = false
  ∧ users db !! Issue.user_id issue = None.
Proof.
  unfold format_issue, user_ref.
  destruct (Issue.is_anonymous issue); simpl; [done|].
  destruct (users db !! Issue.user_id issue); simpl; [done|].
  by intros [= <-].
Qed.

Lemma format_all_raises (db : Db) (cur : option Z) (rows : list (Z * Issue.t))
    (e : Exn) :
  format_all db cur rows = inl e →
  e = AttributeError
  ∧ ∃ r, r ∈ rows
         ∧ Issue.is_anonymous r.2 = false
         ∧ users db !! Issue.user_id r.2 = None.
Proof.
  induction rows as [|r rows IH]; simpl; [done|].
  destruct (format_issue db r.1 r.2 cur) as [e'|v] eqn:Hv; simpl.
  - intros [= <-]. destruct (format_issue_raises _ _ _ _ _ Hv) as (-> & ? & ?).
    split; [done|]. exists r. split; [by left|done].
  - destruct (format_all db cur rows) as [e'|vs]; simpl; [|done].
    intros [= <-]. destruct (IH eq_refl) as (-> & r' & Hin & ? & ?).
    split; [done|]. exists r'. split; [by right|done].
Qed.

Lemma format_all_no_user (db : Db) (rows : list (Z * Issue.t))
    (vs : list IssueView) :
  format_all db None rows = inr vs → Forall (λ v, v_can_edit v = false) vs.
Proof.
  revert vs. induction rows as [|r rows IH]; intros vs; simpl.
  - intros [= <-]. constructor.
  - unfold format_issue at 1.
    destruct (if Issue.is_anonymous r.2 then _ else _) as [e|user]; simpl;
      [done|].
    destruct (format_all db None rows) as [e|vs']; simpl; [done|].
    intros [= <-]. constructor; [done|]. by apply IH.
Qed.

(** X15: the admin listing answers 403 to a user who is no admin.  For
    an admin it raises [AttributeError] iff some stored issue is not
    anonymous and has no reporter row; otherwise it answers 200 with one
    entry per stored issue, whatever its distance, status or flag count,
    and no entry is marked editable. *)
Theorem get_all_issues_outcomes (db : Db) (uid : Z) (user : User.t) :
  users db !! uid = Some user →
  (User.is_admin user = false →
     get_all_issues db (Some uid) = Reply 403 (BError "Unauthorized"))
  ∧ (User.is_admin user = true →
       (get_all_issues db (Some uid) = Unhandled AttributeError ↔
          ∃ j issue, issues db !! j = Some issue
                     ∧ Issue.is_anonymous issue = false
                     ∧ users db !! Issue.user_id issue = None)
       ∧ ((∀ j issue, issues db !! j = Some issue → owner_known db issue) →
          ∃ vs, get_all_issues db (Some uid) = Reply 200 (BIssues vs)
                ∧ (∀ j, j ∈ v_id <$> vs ↔ is_Some (issues db !! j))
                ∧ length vs = size (issues db)
                ∧ Forall (λ v, v_can_edit v = false) vs)).
Proof.
  intros Hu. unfold get_all_issues. rewrite Hu. split.
  - by intros ->.
  - intros ->. cbn [negb]. split.
    + split.
      * destruct (format_all db None (map_to_list (issues db)))
          as [e|vs] eqn:Hf; [|done].
        intros _. destruct (format_all_raises _ _ _ _ Hf)
          as (_ & [j issue] & Hin & Han & Hno).
        apply elem_of_map_to_list in Hin. eauto.
      * intros (j & issue & Hj & Han & Hno).
        destruct (format_all db None (map_to_list (issues db)))
          as [e|vs] eqn:Hf.
        { by destruct (format_all_raises _ _ _ _ Hf) as (-> & _). }
        exfalso.
        assert ((j, issue) ∈ map_to_list (issues db)) as Hin
          by (by apply elem_of_map_to_list).
        clear Hj. revert vs Hf.
        induction (map_to_list (issues db)) as [|r rows IH]; intros vs Hf.
        { by apply elem_of_nil in Hin. }
        simpl in Hf.
        destruct (format_issue db r.1 r.2 None) as [e|v] eqn:Hv; [done|].
        simpl in Hf.
        destruct (format_all db None rows) as [e|vs'] eqn:Hrest; [done|].
        apply elem_of_cons in Hin as [<-|Hin]; [|by eapply IH].
        unfold format_issue, user_ref in Hv. simpl in Hv.
        by rewrite Han, Hno in Hv.
    + intros Hknown.
      destruct (format_all_known db None (map_to_list (issues db)))
        as (vs & Hvs & Hids).
      { intros [j issue] Hin. apply elem_of_map_to_list in Hin.
        by apply (Hknown j). }
      exists vs. rewrite Hvs. split; [done|]. split; [|split].
      * intros j. rewrite Hids, list_elem_of_fmap. split.
        -- intros ([j' issue] & -> & Hin).
           apply elem_of_map_to_list in Hin. by eexists.
        -- intros [issue Hj]. exists (j, issue). split; [done|].
           by apply elem_of_map_to_list.
      * rewrite <- length_map_to_list, <- (length_fmap v_id), Hids.
        by rewrite length_fmap.
      * by apply (format_all_no_user db (map_to_list (issues db))).
Qed.

Lemma get_all_issues_witness :
  get_all_issues sample_db (Some 3) = Reply 403 (BError "Unauthorized")
  ∧ ∃ vs, get_all_issues sample_db_flagged (Some 2) = Reply 200 (BIssues vs)
          ∧ (∀ j, j ∈ v_id <$> vs ↔ is_Some (issues sample_db_flagged !! j))
          ∧ length vs = size (issues sample_db_flagged)
          ∧ Forall (λ v, v_can_edit v = false) vs.
Proof.
  split.
  - apply (proj1 (get_all_issues_outcomes sample_db 3 (User.mk "ravi" false)
                    ltac:(vm_compute; reflexivity))).
    reflexivity.
  - apply (proj2 (get_all_issues_outcomes sample_db_flagged 2
                    (User.mk "root" true) ltac:(vm_compute; reflexivity))).
    + reflexivity.
    + intros j issue Hj. right.
      assert (issues sample_db_flagged = {[1 := sample_issue_flagged]}) as Heq
        by (vm_compute; reflexivity).
      rewrite Heq in Hj. apply lookup_singleton_Some in Hj as [_ <-].
      vm_compute. eauto.
Defined.

(** ** Flagged issues in the listing *)

Lemma nearby_issues_defined (E : Env) (db : Db) (user_lat user_lon radius : float)
    (category status : option string) :
  (∀ j issue, issues db !! j = Some issue →
     is_Some (geodesic_km E user_lat user_lon
                (Issue.latitude issue) (Issue.longitude issue))) →
  ∃ rows,
    nearby_issues E db user_lat user_lon radius category status = inr rows
    ∧ ∀ j issue,
        (j, issue) ∈ rows ↔
          issues db !! j = Some issue
          ∧ (∃ km, geodesic_km E user_lat user_lon
                     (Issue.latitude issue) (Issue.longitude issue) = Some km
                   ∧ (km <=? radius)%float = true)
          ∧ passes_filter category (Issue.category issue)
          ∧ passes_filter status (Issue.status issue).
Proof.
  intros Hdef.
  destruct (within_radius_defined E user_lat user_lon radius
              (filtered_issues db category status)) as (rows & Hrows & Hmem).
  { intros [j issue] Hr. apply elem_of_filtered_issues in Hr as (Hi & _).
    by apply (Hdef j). }
  exists rows. split; [exact Hrows|]. intros j issue.
  rewrite Hmem, elem_of_filtered_issues. simpl. tauto.
Qed.

Lemma flag_issue_issues (db : Db) (u i : Z) (issue : Issue.t) :
  issues db !! i = Some issue →
  ∃ issue',
    issues (flag_issue db (Some u) i).1 = <[i := issue']> (issues db)
    ∧ Issue.latitude issue' = Issue.latitude issue
    ∧ Issue.longitude issue' = Issue.longitude issue
    ∧ Issue.category issue' = Issue.category issue.
Proof.
  intros Hi. rewrite (flag_issue_found db u i issue Hi).
  destruct (5 <=? Issue.flags issue + 1); cbn [fst]; eexists; by split.
Qed.

(** X16: a flag request hides nothing from the listing.  For a query
    without status parameter, the listing after a flag request on an issue,
    the fifth one included, selects the same issue ids as the listing
    before it. *)
Theorem flag_does_not_hide_from_listing
    (E : Env) (db : Db) (u i : Z) (issue : Issue.t)
    (user_lat user_lon radius : float) (category : option string) :
  issues db !! i = Some issue →
  (∀ j issue, issues db !! j = Some issue →
     is_Some (geodesic_km E user_lat user_lon
                (Issue.latitude issue) (Issue.longitude issue))) →
  let db' := (flag_issue db (Some u) i).1 in
  ∃ rows rows',
    nearby_issues E db user_lat user_lon radius category None = inr rows
    ∧ nearby_issues E db' user_lat user_lon radius category None = inr rows'
    ∧ ∀ j, j ∈ rows'.*1 ↔ j ∈ rows.*1.
Proof.
  intros Hi Hdef db'.
  destruct (flag_issue_issues db u i issue Hi)
    as (issue' & Hdb' & Hla & Hlo & Hc).
  fold db' in Hdb'.
  destruct (nearby_issues_defined E db user_lat user_lon radius category None
              Hdef) as (rows & Hrows & Hmem).
  destruct (nearby_issues_defined E db' user_lat user_lon radius category None)
    as (rows' & Hrows' & Hmem').
  { intros j x. rewrite Hdb'. intros [[<- <-]|[Hne Hj]]%lookup_insert_Some.
    - rewrite Hla, Hlo. by apply (Hdef i).
    - by apply (Hdef j). }
  exists rows, rows'. split; [done|]. split; [done|].
  intros j. rewrite !list_elem_of_fmap. split.
  - intros ([j' x] & -> & Hin). simpl.
    apply Hmem' in Hin as (Hj & Hnear & Hcat & _). rewrite Hdb' in Hj.
    apply lookup_insert_Some in Hj as [[<- <-]|[Hne Hj]].
    + exists (i, issue). split; [done|]. apply Hmem.
      rewrite Hla, Hlo in Hnear. rewrite Hc in Hcat. done.
    + exists (j', x). split; [done|]. apply Hmem. done.
  - intros ([j' x] & -> & Hin). simpl.
    apply Hmem in Hin as (Hj & Hnear & Hcat & _).
    destruct (decide (j' = i)) as [->|Hne].
    + rewrite Hi in Hj. inversion Hj; subst x.
      exists (i, issue'). split; [done|]. apply Hmem'.
      rewrite Hdb', lookup_insert_eq, Hla, Hlo, Hc. done.
    + exists (j', x). split; [done|]. apply Hmem'.
      rewrite Hdb', lookup_insert_ne by done. done.
Qed.

Lemma flag_does_not_hide_witness :
  ∃ rows rows',
    nearby_issues sample_env (flags_by sample_db 1 [1; 3; 4; 5]) 12 77 5
      None None = inr rows
    ∧ nearby_issues sample_env
        (flag_issue (flags_by sample_db 1 [1; 3; 4; 5]) (Some 6) 1).1 12 77 5
        None None = inr rows'
    ∧ ∀ j, j ∈ rows'.*1 ↔ j ∈ rows.*1.
Proof.
  apply (flag_does_not_hide_from_listing sample_env
           (flags_by sample_db 1 [1; 3; 4; 5]) 6 1
           (Issue.set_flags 4 sample_issue) 12 77 5 None).
  - vm_compute. reflexivity.
  - intros j issue Hj.
    assert (issues (flags_by sample_db 1 [1; 3; 4; 5])
            = {[1 := Issue.set_flags 4 sample_issue]}) as Heq
      by (vm_compute; reflexivity).
    rewrite Heq in Hj. apply lookup_singleton_Some in Hj as [_ <-].
    vm_compute. eauto.
Defined.

(** ** A distance that cannot be computed *)

Lemma within_radius_raises (E : Env) (user_lat user_lon radius : float)
    (rows : list (Z * Issue.t)) :
  (∃ r, r ∈ rows
        ∧ geodesic_km E user_lat user_lon
            (Issue.latitude r.2) (Issue.longitude r.2) = None) →
  within_radius E user_lat user_lon radius rows = inl ValueError.
Proof.
  induction rows as [|r rows IH]; intros (r' & Hin & Hnone).
  - by apply elem_of_nil in Hin.
  - simpl. unfold is_within_radius.
    destruct (geodesic_km E user_lat user_lon (Issue.latitude r.2)
                (Issue.longitude r.2)) as [km|] eqn:Hkm; simpl; [|done].
    apply elem_of_cons in Hin as [->|Hin]; [congruence|].
    rewrite IH by eauto. done.
Qed.

(** X17: the listing does not catch an exception of the distance
    computation.  When the query parameters parse and the library raises
    on the coordinates of one stored issue that passes the category and
    status filters, the request fails with [ValueError], whatever the other
    issues are. *)
Theorem listing_fails_on_undefined_distance
    (E : Env) (db : Db) (identity : option Z) (args : gmap string string)
    (user_lat user_lon radius : float) (j : Z) (issue : Issue.t) :
  float_arg E (args !! "lat") = inr user_lat →
  float_arg E (args !! "lon") = inr user_lon →
  radius_arg E args = inr radius →
  issues db !! j = Some issue →
  passes_filter (args !! "category") (Issue.category issue) →
  passes_filter (args !! "status") (Issue.status issue) →
  geodesic_km E user_lat user_lon
    (Issue.latitude issue) (Issue.longitude issue) = None →
  get_issues E db identity args = Unhandled ValueError.
Proof.
  intros Hlat Hlon Hrad Hj Hc Hs Hnone. unfold get_issues, nearby_issues.
  rewrite Hlat, Hlon, Hrad.
  rewrite within_radius_raises; [done|].
  exists (j, issue). split; [|done]. by apply elem_of_filtered_issues.
Qed.

Lemma listing_fails_witness :
  get_issues sample_env off_globe_db None
    (<["lat" := "12"]> {["lon" := "77"]}) = Unhandled ValueError.
Proof.
  apply (listing_fails_on_undefined_distance sample_env off_globe_db None
           (<["lat" := "12"]> {["lon" := "77"]}) 12 77 5 1
           (Issue.mk "" "Deep one" "" 91 181 "Reported" 1 false 0 0)).
  - vm_compute. reflexivity.
  - vm_compute. reflexivity.
  - vm_compute. reflexivity.
  - vm_compute. reflexivity.
  - exact I.
  - exact I.
  - vm_compute. reflexivity.
Defined.
